(** * GemmCommon: parameter descriptors of the tunable GEMM operations

    A shallow embedding of [aten/src/ATen/cuda/tunable/GemmCommon.h]:
    the dense descriptor [GemmParams<T>] and the batched-strided descriptor
    [GemmStridedBatchedParams<T>], with their signature, byte-extent,
    deep-copy, teardown and numerical-check methods.

    Conventions.
    - [int64_t] fields are integers [Z]; [size_t] values are integers in
      [0, 2^64) and every [size_t] operation reduces modulo [2^64].
    - [char] is [ascii], [std::string] is [string].
    - [double] is the primitive binary64 [float]; a tensor converted with
      [.to(at::kFloat)] is a list of binary32 values ([spec_float] at
      precision 24, maximal exponent 128).
    - Device memory and the caching allocator are an explicit state
      ([Device]) threaded through a state-and-error monad; an error
      carries the device as it was when the exception was thrown. *)

From Stdlib Require Import ZArith String Ascii List Bool Lia.
From Stdlib Require Import DecimalString DecimalZ DecimalPos Sorted.
From Stdlib Require Import Floats.
From stdpp Require Import base option gmap.

Import ListNotations.
Local Open Scope Z_scope.

(** ** Machine integers *)

(** [size_t] on the 64-bit targets the file is built for. *)
Definition size_t_modulus : Z := 2 ^ 64.

(** Conversion of an [int64_t] operand to [size_t] (usual arithmetic
    conversions: the signed operand is reduced modulo [2^64]). *)
Definition to_size_t (z : Z) : Z := z mod size_t_modulus.

Definition size_mul (x y : Z) : Z := (x * y) mod size_t_modulus.
Definition size_add (x y : Z) : Z := (x + y) mod size_t_modulus.

Definition int64_min : Z := - 2 ^ 63.
Definition int64_max : Z := 2 ^ 63 - 1.
Definition in_int64 (z : Z) : bool := (int64_min <=? z) && (z <=? int64_max).

(** Signed multiplication: overflow is undefined behaviour, rendered as
    [None]. *)
Definition int64_mul (x y : Z) : option Z :=
  if in_int64 (x * y) then Some (x * y) else None.

(** ** The element type [T]

    What the templates use of [T]: [sizeof(T)], the accumulation type
    [at::opmath_type<T>], and the conversion of a [T] tensor to
    [at::kFloat]. *)
Definition float32 : Type := spec_float.

Class ScalarType (T : Type) := {
  sizeof : Z;
  sizeof_range : 0 < sizeof < size_t_modulus;
  opmath_type : Type;
  to_kFloat : T -> float32
}.

(** ** [BlasOp]

    An [enum class] over [int]: the enumerators are [N = 0] and [T = 1],
    and an object of the type can hold any value of [int] (a cast gives
    one). *)
Definition BlasOp : Type := Z.
Definition BlasOp_N : BlasOp := 0.
Definition BlasOp_T : BlasOp := 1.

(** The [c10::Error] that a failed [TORCH_CHECK] throws, with the message
    it was given. *)
Inductive c10_Error := TorchCheck (msg : string).

(** The [switch] returns on the two enumerators; every other value falls
    through to [TORCH_CHECK(false, ...)], which always throws, so the
    [return "N"] after it is never reached. *)
Definition BlasOpToString (op : BlasOp) : c10_Error + string :=
  if op =? BlasOp_N then inr "N"%string
  else if op =? BlasOp_T then inr "T"%string
  else inl (TorchCheck "unrecognized BlasOp").

(** ** [c10::str]

    Every argument is streamed into one [std::ostringstream]: a [char]
    as itself, a string literal as its characters, an [int64_t] in
    decimal with a leading minus sign when negative. *)
Inductive StrArg :=
| ArgChar (ch : ascii)
| ArgLit (s : string)
| ArgInt64 (z : Z).

Definition stream_int64 (z : Z) : string := NilZero.string_of_int (Z.to_int z).

Definition stream_out (x : StrArg) : string :=
  match x with
  | ArgChar ch => String ch EmptyString
  | ArgLit s => s
  | ArgInt64 z => stream_int64 z
  end.

Definition c10_str (args : list StrArg) : string :=
  fold_left (fun ss x => (ss ++ stream_out x)%string) args EmptyString.

(** [ch == 'n' || ch == 'N'] *)
Definition is_no_trans (ch : ascii) : bool :=
  Ascii.eqb ch "n" || Ascii.eqb ch "N".

(** ** Device memory and the caching allocator

    The descriptors hold raw device pointers ([N], with [0] the null
    pointer).  A block of device memory has a size in bytes and holds
    whole elements of [T]; a cell that was never written is [None]. *)
Inductive Error := CudaError | OutOfMemory.

Inductive AllocatorCall :=
| RawAlloc (nbytes : Z) (ptr : N)
| MemcpyAsync (dst : N) (dstDevice : Z) (src : N) (srcDevice : Z) (nbytes : Z)
| RawDelete (ptr : N).

Section DeviceMemory.
Context {T : Type} `{ScalarType T}.

Record Block := mkBlock {
  block_bytes : Z;
  block_cells : list (option T)
}.

Record Device := mkDevice {
  current_device : option Z;
  free_bytes : Z;
  heap : gmap N Block;
  calls : list AllocatorCall
}.

(** Host code that calls into the device: a state-and-error monad.  An
    error is a C++ exception: it leaves the function at once, and the
    device stays as the calls made before the throw left it. *)
Definition M (A : Type) : Type := Device -> (Error * Device) + (A * Device).

Definition ret {A} (x : A) : M A := fun d => inr (x, d).

Definition bind {A B} (f : M A) (g : A -> M B) : M B :=
  fun d => match f d with
           | inl e => inl e
           | inr (x, d') => g x d'
           end.

(** Number of whole elements in [nbytes] bytes. *)
Definition cells_of_bytes (nbytes : Z) : nat := Z.to_nat (nbytes / sizeof).

(** Modelled from the spec: [c10::cuda::GetDevice] under [AT_CUDA_CHECK]
    (the code of the device runtime is not in the sources); it yields the
    active device index or raises a device error. *)
Definition GetDevice : M Z :=
  fun d => match current_device d with
           | Some device => inr (device, d)
           | None => inl (CudaError, d)
           end.

(** Modelled from the spec: [CUDACachingAllocator::raw_alloc] (the
    allocator is not in the sources); it returns a block of [nbytes]
    uninitialised bytes at an address that is neither null nor in use,
    and fails on exhaustion. *)
Definition raw_alloc (nbytes : Z) : M N :=
  fun d =>
    if free_bytes d <? nbytes then inl (OutOfMemory, d)
    else
      let ptr := fresh ({[ 0%N ]} ∪ dom (heap d)) in
      let blk := mkBlock nbytes (replicate (cells_of_bytes nbytes) None) in
      inr (ptr, mkDevice (current_device d) (free_bytes d - nbytes)
                         (<[ ptr := blk ]> (heap d))
                         (calls d ++ [RawAlloc nbytes ptr])).

(** Modelled from the spec: [CUDACachingAllocator::memcpyAsync] under
    [AT_CUDA_CHECK] (not in the sources); a copy of [nbytes] bytes between
    two blocks, ordered on the current stream, failing with a device
    error when either range is not inside a live block.  Every later
    device operation of this file runs on the same stream, so the copy is
    applied in program order. *)
Definition memcpyAsync (dst : N) (dstDevice : Z) (src : N) (srcDevice : Z)
    (nbytes : Z) : M unit :=
  fun d =>
    match heap d !! src, heap d !! dst with
    | Some sblk, Some dblk =>
        if (nbytes <=? block_bytes sblk) && (nbytes <=? block_bytes dblk)
        then
          let cnt := cells_of_bytes nbytes in
          let cells := take cnt (block_cells sblk) ++ drop cnt (block_cells dblk) in
          inr (tt, mkDevice (current_device d) (free_bytes d)
                            (<[ dst := mkBlock (block_bytes dblk) cells ]> (heap d))
                            (calls d ++ [MemcpyAsync dst dstDevice src srcDevice nbytes]))
        else inl (CudaError, d)
    | _, _ => inl (CudaError, d)
    end.

(** Modelled from the spec: [CUDACachingAllocator::raw_delete] (not in
    the sources); it releases the block at [ptr] and has no failure
    mode. *)
Definition raw_delete (ptr : N) : M unit :=
  fun d =>
    let freed := match heap d !! ptr with
                 | Some blk => block_bytes blk
                 | None => 0
                 end in
    inr (tt, mkDevice (current_device d) (free_bytes d + freed)
                      (delete ptr (heap d))
                      (calls d ++ [RawDelete ptr])).

(** Modelled from the spec: [at::from_blob(ptr, {numel}, options)], the
    flat view of [numel] elements of [T] at [ptr] (the tensor library is
    not in the sources).  Reading outside a live block or an
    uninitialised cell has no defined value: [None]. *)
Definition from_blob (d : Device) (ptr : N) (numel : Z) : option (list T) :=
  if numel <? 0 then None
  else
    match heap d !! ptr with
    | Some blk =>
        let cells := take (Z.to_nat numel) (block_cells blk) in
        if (Z.of_nat (length cells) =? numel) then mapM id cells else None
    | None => None
    end.
End DeviceMemory.
Arguments Block T : clear implicits.
Arguments Device T : clear implicits.
Arguments M T A : clear implicits.

Declare Scope dev_scope.
Delimit Scope dev_scope with dev.
Notation "'let*' x := e 'in' k" := (bind e (fun x => k))
  (at level 10, x name, e at level 100, k at level 200) : dev_scope.
Notation "'run' e 'then' k" := (bind e (fun _ => k))
  (at level 10, e at level 100, k at level 200) : dev_scope.

(** ** Tuning status and the tolerance sweep *)

(** Modelled from the spec: the verdicts of [TuningStatus], declared in
    [TunableOp.h], which is not in the sources. *)
Inductive TuningStatus := OK | FAIL.

Local Set Warnings "-inexact-float".

Definition atols : list float := [1e-1; 1e-2; 1e-3; 1e-4; 1e-5]%float.
Definition rtols : list float := [1e-1; 1e-2; 1e-3; 1e-4; 1e-5]%float.

(** The loop nest of both [NumericalCheck] methods: [close rtol atol] is
    the outcome of [at::allclose(ref_float, oth_float, rtol, atol)]; the
    state is [(last_succeed_atol, last_succeed_rtol)]. *)
Definition tolerance_sweep (close : float -> float -> bool) : float * float :=
  fold_left
    (fun st atol =>
       fold_left
         (fun st rtol => if close rtol atol then (atol, rtol) else st)
         rtols st)
    atols (1%float, 1%float).

(** The tail of both [NumericalCheck] methods: [FAIL] when the sentinel is
    unchanged, otherwise the pair is logged and the verdict is [OK]. *)
Definition verdict (last_succeed : float * float)
  : TuningStatus * option (float * float) :=
  let '(last_succeed_atol, last_succeed_rtol) := last_succeed in
  if (last_succeed_atol =? 1)%float then (FAIL, None)
  else (OK, Some (last_succeed_atol, last_succeed_rtol)).

(** ** The all-close predicate *)

Definition f32_sub : float32 -> float32 -> float32 := SFsub 24 128.
Definition f32_add : float32 -> float32 -> float32 := SFadd 24 128.
Definition f32_mul : float32 -> float32 -> float32 := SFmul 24 128.

(** Conversion of a [double] scalar to single precision (round to nearest
    even). *)
Definition double_to_float32 (x : float) : float32 :=
  match Prim2SF x with
  | S754_finite s mx e => binary_normalize 24 128 (cond_Zopp s (Zpos mx)) e s
  | y => y
  end.

(** A finite value: neither NaN nor an infinity. *)
Definition is_finite32 (x : float32) : bool :=
  match x with
  | S754_zero _ | S754_finite _ _ _ => true
  | S754_infinity _ | S754_nan => false
  end.

Definition is_nan32 (x : float32) : bool :=
  match x with
  | S754_nan => true
  | _ => false
  end.

(** The operand that scales the relative term of the element test.  The
    specification words the test in two ways: section 4.6 as
    [|r - c| <= atol + rtol * |r|], relative to the reference, which is
    the first operand of the call in [NumericalCheck]; the glossary as
    [|a - b| <= atol + rtol * |b|], relative to the second operand. *)
Inductive RelativeTo := FirstOperand | SecondOperand.

(** Modelled from the spec: the element test of the all-close predicate
    ([at::allclose] and the tensor library are not in the sources),
    evaluated in single precision, in the wording that [rel] selects.
    The test is applied as the all-close of the tensor library applies
    it: two elements that compare equal are close whatever the
    tolerances (two infinities of the same sign among them), and two
    elements that do not are close when their difference is finite and
    within the bound.  A NaN is close to nothing. *)
Definition isclose (rel : RelativeTo) (rtol atol : float) (a b : float32) : bool :=
  let scaled := match rel with FirstOperand => a | SecondOperand => b end in
  let actual_error := SFabs (f32_sub a b) in
  let allowed_error :=
    f32_add (double_to_float32 atol)
            (f32_mul (double_to_float32 rtol) (SFabs scaled)) in
  SFeqb a b || (is_finite32 actual_error && SFleb actual_error allowed_error).

(** Modelled from the spec: [at::allclose(self, other, rtol, atol)] holds
    when every element pair of the two flat sequences passes [isclose];
    [at::allclose] is not in the sources. *)
Definition allclose (rel : RelativeTo) (self other : list float32)
    (rtol atol : float) : bool :=
  (length self =? length other)%nat
  && forallb (fun ab => isclose rel rtol atol (fst ab) (snd ab))
             (combine self other).

(** ** [GemmParams<T>] *)
Module GemmParams.
Section Descriptor.
Context {T : Type} `{ScalarType T}.

Record t := mk {
  transa : ascii;
  transb : ascii;
  m : Z;
  n : Z;
  k : Z;
  alpha : opmath_type;
  a : N;
  lda : Z;
  b : N;
  ldb : Z;
  beta : opmath_type;
  c : N;
  ldc : Z;
  duplicate_inputs_ : bool
}.

Definition Signature (p : t) : string :=
  c10_str [ArgChar (transa p); ArgChar (transb p); ArgLit "_";
           ArgInt64 (m p); ArgLit "_"; ArgInt64 (n p); ArgLit "_";
           ArgInt64 (k p)].

Definition GetSizeA (p : t) : Z :=
  size_mul (size_mul sizeof (to_size_t (lda p)))
           (to_size_t (if is_no_trans (transa p) then k p else m p)).

Definition GetSizeB (p : t) : Z :=
  size_mul (size_mul sizeof (to_size_t (ldb p)))
           (to_size_t (if is_no_trans (transb p) then n p else k p)).

Definition GetSizeC (p : t) : Z :=
  size_mul (size_mul sizeof (to_size_t (ldc p))) (to_size_t (n p)).

Definition GetSize (p : t) (duplicate_inputs : bool) : Z :=
  let size := GetSizeC p in
  if duplicate_inputs
  then size_add (size_add size (GetSizeA p)) (GetSizeB p)
  else size.

(** [GemmParams() { duplicate_inputs_ = false; }]: the other members
    are left uninitialised; [garbage] stands for their values. *)
Definition ctor (garbage : t) : t :=
  mk (transa garbage) (transb garbage) (m garbage) (n garbage) (k garbage)
     (alpha garbage) (a garbage) (lda garbage) (b garbage) (ldb garbage)
     (beta garbage) (c garbage) (ldc garbage) false.

(** [*copy = *this]: the implicit member-wise copy assignment, private
    members included. *)
Definition assign (copy this : t) : t :=
  mk (transa this) (transb this) (m this) (n this) (k this)
     (alpha this) (a this) (lda this) (b this) (ldb this)
     (beta this) (c this) (ldc this) (duplicate_inputs_ this).

Definition set_a (p : t) (v : N) : t :=
  mk (transa p) (transb p) (m p) (n p) (k p) (alpha p) v (lda p) (b p)
     (ldb p) (beta p) (c p) (ldc p) (duplicate_inputs_ p).
Definition set_b (p : t) (v : N) : t :=
  mk (transa p) (transb p) (m p) (n p) (k p) (alpha p) (a p) (lda p) v
     (ldb p) (beta p) (c p) (ldc p) (duplicate_inputs_ p).
Definition set_c (p : t) (v : N) : t :=
  mk (transa p) (transb p) (m p) (n p) (k p) (alpha p) (a p) (lda p) (b p)
     (ldb p) (beta p) v (ldc p) (duplicate_inputs_ p).
Definition set_duplicate_inputs_ (p : t) (v : bool) : t :=
  mk (transa p) (transb p) (m p) (n p) (k p) (alpha p) (a p) (lda p) (b p)
     (ldb p) (beta p) (c p) (ldc p) v.

(** [raw] is the storage [new] hands to the constructor: its contents
    are indeterminate. *)
Definition DeepCopy (raw this : t) (duplicate_inputs : bool) : M T t :=
  (let copy := ctor raw in
   let copy := assign copy this in
   let* device := GetDevice in
   let c_size := GetSizeC this in
   let* new_c := raw_alloc c_size in
   let copy := set_c copy new_c in
   run memcpyAsync (c copy) device (c this) device c_size then
   if duplicate_inputs then
     let a_size := GetSizeA this in
     let b_size := GetSizeB this in
     let* new_a := raw_alloc a_size in
     let copy := set_a copy new_a in
     let* new_b := raw_alloc b_size in
     let copy := set_b copy new_b in
     let copy := set_duplicate_inputs_ copy true in
     ret copy
   else ret copy)%dev.

Definition Delete (this : t) : M T unit :=
  (run raw_delete (c this) then
   if duplicate_inputs_ this then
     run raw_delete (a this) then
     raw_delete (b this)
   else ret tt)%dev.

(** [at::allclose] is a parameter of the method. *)
Variable at_allclose : list float32 -> list float32 -> float -> float -> bool.

Definition NumericalCheck (d : Device T) (this other : t)
  : option (TuningStatus * option (float * float)) :=
  match int64_mul (ldc this) (n this) with
  | None => None
  | Some numel =>
      match from_blob d (c this) numel, from_blob d (c other) numel with
      | Some ref, Some oth =>
          let ref_float := map to_kFloat ref in
          let oth_float := map to_kFloat oth in
          Some (verdict
                  (tolerance_sweep
                     (fun rtol atol => at_allclose ref_float oth_float rtol atol)))
      | _, _ => None
      end
  end.
End Descriptor.
Arguments t T {_}.
End GemmParams.

(** ** [GemmStridedBatchedParams<T>] *)
Module GemmStridedBatchedParams.
Section Descriptor.
Context {T : Type} `{ScalarType T}.

Record t := mk {
  transa : ascii;
  transb : ascii;
  m : Z;
  n : Z;
  k : Z;
  alpha : opmath_type;
  a : N;
  lda : Z;
  stride_a : Z;
  b : N;
  ldb : Z;
  stride_b : Z;
  beta : opmath_type;
  c : N;
  ldc : Z;
  stride_c : Z;
  batch : Z;
  duplicate_inputs_ : bool
}.

Definition Signature (p : t) : string :=
  c10_str [ArgChar (transa p); ArgChar (transb p); ArgLit "_";
           ArgInt64 (m p); ArgLit "_"; ArgInt64 (n p); ArgLit "_";
           ArgInt64 (k p); ArgLit "_B_"; ArgInt64 (batch p)].

Definition GetSizeA (p : t) : Z :=
  size_mul
    (size_mul (size_mul sizeof (to_size_t (lda p)))
              (to_size_t (if is_no_trans (transa p) then k p else m p)))
    (to_size_t (batch p)).

Definition GetSizeB (p : t) : Z :=
  size_mul
    (size_mul (size_mul sizeof (to_size_t (ldb p)))
              (to_size_t (if is_no_trans (transb p) then n p else k p)))
    (to_size_t (batch p)).

Definition GetSizeC (p : t) : Z :=
  size_mul (size_mul (size_mul sizeof (to_size_t (ldc p))) (to_size_t (n p)))
           (to_size_t (batch p)).

Definition GetSize (p : t) (duplicate_inputs : bool) : Z :=
  let size := GetSizeC p in
  if duplicate_inputs
  then size_add (size_add size (GetSizeA p)) (GetSizeB p)
  else size.

(** [GemmStridedBatchedParams() { duplicate_inputs_ = false; }]: the
    other members are left uninitialised; [garbage] stands for their
    values. *)
Definition ctor (garbage : t) : t :=
  mk (transa garbage) (transb garbage) (m garbage) (n garbage) (k garbage)
     (alpha garbage) (a garbage) (lda garbage) (stride_a garbage)
     (b garbage) (ldb garbage) (stride_b garbage) (beta garbage)
     (c garbage) (ldc garbage) (stride_c garbage) (batch garbage) false.

(** [*copy = *this]: the implicit member-wise copy assignment, private
    members included. *)
Definition assign (copy this : t) : t :=
  mk (transa this) (transb this) (m this) (n this) (k this)
     (alpha this) (a this) (lda this) (stride_a this)
     (b this) (ldb this) (stride_b this) (beta this)
     (c this) (ldc this) (stride_c this) (batch this)
     (duplicate_inputs_ this).

Definition set_a (p : t) (v : N) : t :=
  mk (transa p) (transb p) (m p) (n p) (k p) (alpha p) v (lda p)
     (stride_a p) (b p) (ldb p) (stride_b p) (beta p) (c p) (ldc p)
     (stride_c p) (batch p) (duplicate_inputs_ p).
Definition set_b (p : t) (v : N) : t :=
  mk (transa p) (transb p) (m p) (n p) (k p) (alpha p) (a p) (lda p)
     (stride_a p) v (ldb p) (stride_b p) (beta p) (c p) (ldc p)
     (stride_c p) (batch p) (duplicate_inputs_ p).
Definition set_c (p : t) (v : N) : t :=
  mk (transa p) (transb p) (m p) (n p) (k p) (alpha p) (a p) (lda p)
     (stride_a p) (b p) (ldb p) (stride_b p) (beta p) v (ldc p)
     (stride_c p) (batch p) (duplicate_inputs_ p).
Definition set_duplicate_inputs_ (p : t) (v : bool) : t :=
  mk (transa p) (transb p) (m p) (n p) (k p) (alpha p) (a p) (lda p)
     (stride_a p) (b p) (ldb p) (stride_b p) (beta p) (c p) (ldc p)
     (stride_c p) (batch p) v.

(** [raw] is the storage [new] hands to the constructor: its contents
    are indeterminate. *)
Definition DeepCopy (raw this : t) (duplicate_inputs : bool) : M T t :=
  (let copy := ctor raw in
   let copy := assign copy this in
   let* device := GetDevice in
   let c_size := GetSizeC this in
   let* new_c := raw_alloc c_size in
   let copy := set_c copy new_c in
   run memcpyAsync (c copy) device (c this) device c_size then
   if duplicate_inputs then
     let a_size := GetSizeA this in
     let b_size := GetSizeB this in
     let* new_a := raw_alloc a_size in
     let copy := set_a copy new_a in
     let* new_b := raw_alloc b_size in
     let copy := set_b copy new_b in
     let copy := set_duplicate_inputs_ copy true in
     ret copy
   else ret copy)%dev.

Definition Delete (this : t) : M T unit :=
  (run raw_delete (c this) then
   if duplicate_inputs_ this then
     run raw_delete (a this) then
     raw_delete (b this)
   else ret tt)%dev.

(** [at::allclose] is a parameter of the method. *)
Variable at_allclose : list float32 -> list float32 -> float -> float -> bool.

Definition NumericalCheck (d : Device T) (this other : t)
  : option (TuningStatus * option (float * float)) :=
  match int64_mul (batch this) (stride_c this) with
  | None => None
  | Some numel =>
      match from_blob d (c this) numel, from_blob d (c other) numel with
      | Some ref, Some oth =>
          let ref_float := map to_kFloat ref in
          let oth_float := map to_kFloat oth in
          Some (verdict
                  (tolerance_sweep
                     (fun rtol atol => at_allclose ref_float oth_float rtol atol)))
      | _, _ => None
      end
  end.
End Descriptor.
Arguments t T {_}.
End GemmStridedBatchedParams.

(** ** A concrete element type: [float] *)
#[export] Program Instance float_ScalarType : ScalarType float32 := {
  sizeof := 4;
  opmath_type := float32;
  to_kFloat := fun x => x
}.
Next Obligation. unfold size_t_modulus; lia. Qed.

(** ** Relating the two descriptors *)

(** A batched descriptor and a dense one of the same shape. *)
Definition same_shape {T} `{ScalarType T}
    (p : GemmStridedBatchedParams.t T) (q : GemmParams.t T) : Prop :=
  GemmStridedBatchedParams.transa p = GemmParams.transa q /\
  GemmStridedBatchedParams.transb p = GemmParams.transb q /\
  GemmStridedBatchedParams.m p = GemmParams.m q /\
  GemmStridedBatchedParams.n p = GemmParams.n q /\
  GemmStridedBatchedParams.k p = GemmParams.k q.

(** ... and of the same leading dimensions. *)
Definition same_leading_dims {T} `{ScalarType T}
    (p : GemmStridedBatchedParams.t T) (q : GemmParams.t T) : Prop :=
  GemmStridedBatchedParams.lda p = GemmParams.lda q /\
  GemmStridedBatchedParams.ldb p = GemmParams.ldb q /\
  GemmStridedBatchedParams.ldc p = GemmParams.ldc q.

(** ** Sample descriptors over [float] *)

Definition f32_zero : float32 := S754_zero false.
Definition f32_one : float32 := S754_finite false 8388608 (-23).

(** The dense end-to-end scenario: m=64, n=32, k=16, no transposition,
    lda=64, ldb=16, ldc=64. *)
Definition sample_dense : GemmParams.t float32 :=
  GemmParams.mk "N" "N" 64 32 16 f32_one 1%N 64 2%N 16 f32_zero 3%N 64 false.

(** The batched scenario: the same shape with four batches. *)
Definition sample_batched : GemmStridedBatchedParams.t float32 :=
  GemmStridedBatchedParams.mk "N" "N" 64 32 16 f32_one 1%N 64 1024 2%N 16 512
    f32_zero 3%N 64 2048 4 false.

(** ** Vocabulary of the statements *)

(** A string without the delimiter ['_']. *)
Fixpoint underscore_free (s : string) : bool :=
  match s with
  | EmptyString => true
  | String ch r => negb (Ascii.eqb ch "_") && underscore_free r
  end.

(** The batched extent of one buffer against the dense extent [dense] of
    the same buffer, for a batch count [batch]. *)
Definition scales_with_batch (batched dense batch : Z) : Prop :=
  batched = (batch * dense) mod size_t_modulus /\
  (batch = 1 -> batched = dense) /\
  (0 <= batch -> batch * dense < size_t_modulus -> batched = batch * dense).

Section Effects.
Context {T : Type} `{ScalarType T}.

(** Every block that is live in [d] is live and unchanged in [d']. *)
Definition heap_preserved (d d' : Device T) : Prop :=
  forall (q : N) (blk : Block T),
    heap d !! q = Some blk -> heap d' !! q = Some blk.

(** The sequence of device calls that both [DeepCopy] methods make,
    with the pointers they store in the copy: the new output pointer and,
    when inputs are duplicated, the two new input pointers. *)
Definition deep_copy_calls (src_c : N) (c_size a_size b_size : Z)
    (duplicate_inputs : bool) : M T (N * option (N * N)) :=
  (let* device := GetDevice in
   let* new_c := raw_alloc c_size in
   run memcpyAsync new_c device src_c device c_size then
   if duplicate_inputs then
     let* new_a := raw_alloc a_size in
     let* new_b := raw_alloc b_size in
     ret (new_c, Some (new_a, new_b))
   else ret (new_c, None))%dev.

(** What a deep copy of a descriptor with output buffer [src_c] leaves
    on the device: the blocks that were live are untouched; the calls
    are one allocation and one copy for the output and, for duplicated
    inputs, two more allocations, and nothing else; the new output block
    was not live before, is not null, has [c_size] bytes and holds the
    leading elements of the source block. *)
Definition deep_copy_effect (d d' : Device T) (duplicate_inputs : bool)
    (src_c new_c new_a new_b : N) (c_size a_size b_size : Z) : Prop :=
  heap_preserved d d' /\
  (exists device : Z,
      calls d' = calls d
        ++ [RawAlloc c_size new_c; MemcpyAsync new_c device src_c device c_size]
        ++ (if duplicate_inputs
            then [RawAlloc a_size new_a; RawAlloc b_size new_b] else [])) /\
  heap d !! new_c = None /\ new_c <> 0%N /\
  (exists blk : Block T,
      heap d' !! new_c = Some blk /\
      block_bytes blk = c_size /\
      forall src : Block T,
        heap d !! src_c = Some src ->
        block_cells blk = take (cells_of_bytes c_size) (block_cells src)) /\
  (duplicate_inputs = true ->
   heap d !! new_a = None /\ heap d !! new_b = None /\
   new_a <> new_c /\ new_b <> new_c /\ new_a <> new_b /\
   heap d' !! new_a
     = Some (mkBlock a_size (replicate (cells_of_bytes a_size) None)) /\
   heap d' !! new_b
     = Some (mkBlock b_size (replicate (cells_of_bytes b_size) None))).
End Effects.

(** The descriptor a dense [DeepCopy] returns, given the pointers the
    allocator handed out. *)
Definition dense_copy_of {T} `{ScalarType T} (this : GemmParams.t T)
    (new_c : N) (new_ab : option (N * N)) : GemmParams.t T :=
  match new_ab with
  | Some (new_a, new_b) =>
      GemmParams.mk (GemmParams.transa this) (GemmParams.transb this)
        (GemmParams.m this) (GemmParams.n this) (GemmParams.k this)
        (GemmParams.alpha this) new_a (GemmParams.lda this) new_b
        (GemmParams.ldb this) (GemmParams.beta this) new_c
        (GemmParams.ldc this) true
  | None =>
      GemmParams.mk (GemmParams.transa this) (GemmParams.transb this)
        (GemmParams.m this) (GemmParams.n this) (GemmParams.k this)
        (GemmParams.alpha this) (GemmParams.a this) (GemmParams.lda this)
        (GemmParams.b this) (GemmParams.ldb this) (GemmParams.beta this) new_c
        (GemmParams.ldc this) (GemmParams.duplicate_inputs_ this)
  end.

(** The descriptor a batched [DeepCopy] returns, given the pointers the
    allocator handed out. *)
Definition batched_copy_of {T} `{ScalarType T} (this : GemmStridedBatchedParams.t T)
    (new_c : N) (new_ab : option (N * N)) : GemmStridedBatchedParams.t T :=
  match new_ab with
  | Some (new_a, new_b) =>
      GemmStridedBatchedParams.mk
        (GemmStridedBatchedParams.transa this) (GemmStridedBatchedParams.transb this)
        (GemmStridedBatchedParams.m this) (GemmStridedBatchedParams.n this)
        (GemmStridedBatchedParams.k this) (GemmStridedBatchedParams.alpha this)
        new_a (GemmStridedBatchedParams.lda this)
        (GemmStridedBatchedParams.stride_a this)
        new_b (GemmStridedBatchedParams.ldb this)
        (GemmStridedBatchedParams.stride_b this)
        (GemmStridedBatchedParams.beta this) new_c
        (GemmStridedBatchedParams.ldc this) (GemmStridedBatchedParams.stride_c this)
        (GemmStridedBatchedParams.batch this) true
  | None =>
      GemmStridedBatchedParams.mk
        (GemmStridedBatchedParams.transa this) (GemmStridedBatchedParams.transb this)
        (GemmStridedBatchedParams.m this) (GemmStridedBatchedParams.n this)
        (GemmStridedBatchedParams.k this) (GemmStridedBatchedParams.alpha this)
        (GemmStridedBatchedParams.a this) (GemmStridedBatchedParams.lda this)
        (GemmStridedBatchedParams.stride_a this)
        (GemmStridedBatchedParams.b this) (GemmStridedBatchedParams.ldb this)
        (GemmStridedBatchedParams.stride_b this)
        (GemmStridedBatchedParams.beta this) new_c
        (GemmStridedBatchedParams.ldc this) (GemmStridedBatchedParams.stride_c this)
        (GemmStridedBatchedParams.batch this)
        (GemmStridedBatchedParams.duplicate_inputs_ this)
  end.

(** ** A small device scenario over [float]

    Three caller-owned blocks of eight elements at addresses 1, 2 and 3,
    and a dense and a batched descriptor that borrow them. *)
Definition block_of (values : list float32) : Block float32 :=
  mkBlock (4 * Z.of_nat (length values)) (map Some values).

Definition small_device : Device float32 :=
  mkDevice (Some 0) 4096
    (<[ 1%N := block_of (replicate 8 f32_one) ]>
       (<[ 2%N := block_of (replicate 8 f32_one) ]>
          (<[ 3%N := block_of (replicate 8 f32_one) ]> ∅)))
    [].

Definition small_dense : GemmParams.t float32 :=
  GemmParams.mk "N" "N" 2 2 2 f32_one 1%N 2 2%N 2 f32_zero 3%N 2 false.

(** The small device with room for one output block only: 40 free
    bytes. *)
Definition tight_device : Device float32 :=
  mkDevice (current_device small_device) 40 (heap small_device) [].

(** Storage as [new] may return it: no member agrees with a descriptor
    of the scenarios. *)
Definition junk_dense : GemmParams.t float32 :=
  GemmParams.mk "?" "!" (-7) (-8) (-9) S754_nan 91%N (-10) 92%N (-11)
    (S754_infinity true) 93%N (-12) true.

Definition junk_batched : GemmStridedBatchedParams.t float32 :=
  GemmStridedBatchedParams.mk "?" "!" (-7) (-8) (-9) S754_nan 91%N (-10) (-13)
    92%N (-11) (-14) (S754_infinity true) 93%N (-12) (-15) (-16) true.

Definition small_batched : GemmStridedBatchedParams.t float32 :=
  GemmStridedBatchedParams.mk "N" "N" 2 2 2 f32_one 1%N 2 4 2%N 2 4
    f32_zero 3%N 2 4 2 false.

(** ** Vocabulary of the numerical check *)

(** The tolerance pairs [(atol, rtol)] in iteration order: atol outer,
    rtol inner. *)
Definition tolerance_pairs : list (float * float) := list_prod atols rtols.

(** The body of the inner loop on the pair [ar = (atol, rtol)]. *)
Definition sweep_step (close : float -> float -> bool)
    (st ar : float * float) : float * float :=
  if close (snd ar) (fst ar) then ar else st.

(** What a result [(status, reported)] of the sweep says about the
    predicate [close rtol atol]:
    - the status is [FAIL] exactly when no pair of the ladder passes, and
      then nothing is reported;
    - the status is [OK] exactly when a pair is reported;
    - a reported pair passes, splits the iteration order so that no later
      pair passes, and is not the sentinel. *)
Definition sweep_outcome (close : float -> float -> bool)
    (res : TuningStatus * option (float * float)) : Prop :=
  (fst res = FAIL <->
   forall atol rtol, In atol atols -> In rtol rtols -> close rtol atol = false) /\
  (fst res = FAIL -> snd res = None) /\
  (fst res = OK <-> exists atol rtol, snd res = Some (atol, rtol)) /\
  (forall atol rtol,
      snd res = Some (atol, rtol) ->
      (exists before after,
          tolerance_pairs = before ++ (atol, rtol) :: after /\
          close rtol atol = true /\
          Forall (fun ar => close (snd ar) (fst ar) = false) after) /\
      (atol =? 1)%float = false /\ (rtol =? 1)%float = false).


(** ** Results that hold an infinity

    One-element results at addresses 1, 2 and 3: an infinity, an equal
    infinity, and 1. *)
Definition f32_inf : float32 := S754_infinity false.





(** ** An output buffer that holds a NaN, and one that holds an infinity

    The small device with a NaN, or an infinity, as first element of the
    block at address 3. *)
Definition nan_device : Device float32 :=
  mkDevice (Some 0) 4096
    (<[ 1%N := block_of (replicate 8 f32_one) ]>
       (<[ 2%N := block_of (replicate 8 f32_one) ]>
          (<[ 3%N := block_of (S754_nan :: replicate 7 f32_one) ]> ∅)))
    [].

Definition inf_device : Device float32 :=
  mkDevice (Some 0) 4096
    (<[ 1%N := block_of (replicate 8 f32_one) ]>
       (<[ 2%N := block_of (replicate 8 f32_one) ]>
          (<[ 3%N := block_of (f32_inf :: replicate 7 f32_one) ]> ∅)))
    [].

(** ** A batched output with padding between the matrices

    Two 2x2 matrices with ldc = 2 at a batch stride of 5 elements, in a
    block of ten elements at address 3. *)
Definition padded_batched : GemmStridedBatchedParams.t float32 :=
  GemmStridedBatchedParams.mk "N" "N" 2 2 2 f32_one 1%N 2 4 2%N 2 4
    f32_zero 3%N 2 5 2 false.

Definition padded_device : Device float32 :=
  mkDevice (Some 0) 4096 (<[ 3%N := block_of (replicate 10 f32_one) ]> ∅) [].

(** ** Descriptors whose byte extents exceed [size_t]

    A 1x1x1 problem over [float] with a leading dimension of 2^62 for A
    (a single column, so one element is addressed), and a 1x1x1 problem
    repeated 2^62 times over the same matrices (batch strides 0). *)
Definition wide_dense : GemmParams.t float32 :=
  GemmParams.mk "N" "N" 1 1 1 f32_one 1%N (2 ^ 62) 2%N 1 f32_zero 3%N 1 false.

Definition unit_dense : GemmParams.t float32 :=
  GemmParams.mk "N" "N" 1 1 1 f32_one 1%N 1 2%N 1 f32_zero 3%N 1 false.

Definition many_batched : GemmStridedBatchedParams.t float32 :=
  GemmStridedBatchedParams.mk "N" "N" 1 1 1 f32_one 1%N 1 0 2%N 1 0
    f32_zero 3%N 1 0 (2 ^ 62) false.

(** ** Vocabulary of the further properties *)

(** The bytes requested from the allocator in a trace of calls. *)
Definition allocated_bytes (trace : list AllocatorCall) : Z :=
  fold_right
    (fun call acc =>
       match call with
       | RawAlloc nbytes _ => nbytes + acc
       | _ => acc
       end)
    0 trace.

(** The pointers released in a trace of calls, in order. *)
Definition released (trace : list AllocatorCall) : list N :=
  flat_map
    (fun call =>
       match call with
       | RawDelete ptr => [ptr]
       | _ => []
       end)
    trace.

(** The dense scenario with A transposed: A is stored k x m with
    lda = 16. *)
Definition sample_dense_T : GemmParams.t float32 :=
  GemmParams.mk "T" "N" 64 32 16 f32_one 1%N 16 2%N 16 f32_zero 3%N 64 false.

(** The dense scenario with transa written in lower case. *)
Definition sample_dense_lower : GemmParams.t float32 :=
  GemmParams.mk "n" "N" 64 32 16 f32_one 1%N 64 2%N 16 f32_zero 3%N 64 false.

(** [x] is at least as tight as [y]: a smaller atol, or the same atol
    and an rtol that is not larger; pairs are [(atol, rtol)]. *)
Definition pair_tighter (x y : float * float) : bool :=
  (fst x <? fst y)%float
  || ((fst x =? fst y)%float && (snd x <=? snd y)%float).

(** * Properties *)

(** ** Strings produced by [c10::str] *)

Lemma append_nil_l (s : string) : (EmptyString ++ s)%string = s.
Proof. reflexivity. Qed.

Lemma append_cons (ch : ascii) (s r : string) :
  (String ch s ++ r)%string = String ch (s ++ r).
Proof. reflexivity. Qed.

Lemma append_assoc (s1 s2 s3 : string) :
  ((s1 ++ s2) ++ s3 = s1 ++ (s2 ++ s3))%string.
Proof.
  induction s1 as [|ch s1 IH]; rewrite ?append_nil_l, ?append_cons;
    [reflexivity | now rewrite IH].
Qed.

(** Right-nested concatenations with literal characters pushed out. *)
Ltac normalize_append :=
  repeat first [ rewrite append_assoc | rewrite append_cons
               | rewrite append_nil_l ].

Lemma append_length (s1 s2 : string) :
  String.length (s1 ++ s2) = (String.length s1 + String.length s2)%nat.
Proof.
  induction s1 as [|ch s1 IH]; rewrite ?append_nil_l, ?append_cons; simpl;
    [reflexivity | now rewrite IH].
Qed.

(** Two fields that hold no delimiter and are each followed by one are
    read back unambiguously. *)
Lemma split_at_underscore (s1 s2 r1 r2 : string) :
  underscore_free s1 = true ->
  underscore_free s2 = true ->
  (s1 ++ String "_" r1 = s2 ++ String "_" r2)%string ->
  s1 = s2 /\ r1 = r2.
Proof.
  revert s2; induction s1 as [|c1 s1 IH]; intros [|c2 s2];
    rewrite ?append_nil_l, ?append_cons; simpl; intros F1 F2 E.
  - injection E as E. now split.
  - injection E as E1 E2. subst c2. now rewrite Ascii.eqb_refl in F2.
  - injection E as E1 E2. subst c1. now rewrite Ascii.eqb_refl in F1.
  - injection E as E1 E2. subst c2.
    apply andb_true_iff in F1 as [_ F1]. apply andb_true_iff in F2 as [_ F2].
    destruct (IH s2 F1 F2 E2) as [-> ->]. now split.
Qed.

Lemma string_of_uint_underscore_free (d : Decimal.uint) :
  underscore_free (NilEmpty.string_of_uint d) = true.
Proof.
  induction d; simpl; auto.
Qed.

Lemma stream_int64_underscore_free (z : Z) :
  underscore_free (stream_int64 z) = true.
Proof.
  unfold stream_int64, NilZero.string_of_int, NilZero.string_of_uint.
  destruct (Z.to_int z) as [d|d]; destruct d; simpl;
    auto using string_of_uint_underscore_free.
Qed.

Lemma to_uint_not_Nil (p : positive) : Pos.to_uint p <> Decimal.Nil.
Proof.
  intros E. pose proof (DecimalPos.Unsigned.of_to p) as R.
  rewrite E in R. discriminate R.
Qed.

(** Decimal output determines the integer. *)
Lemma stream_int64_inj (x y : Z) : stream_int64 x = stream_int64 y -> x = y.
Proof.
  unfold stream_int64. intros E.
  assert (P : forall z, NilZero.int_of_string (NilZero.string_of_int (Z.to_int z))
                        = Some (Z.to_int z)).
  { intros z. apply NilZero.isi; destruct z; simpl; try discriminate;
      intros [= E']; exact (to_uint_not_Nil _ E'). }
  apply DecimalZ.to_int_inj.
  pose proof (P x) as Px. rewrite E, P in Px. now injection Px.
Qed.

Lemma dense_signature_eq {T} `{ScalarType T} (p : GemmParams.t T) :
  GemmParams.Signature p =
  String (GemmParams.transa p) (String (GemmParams.transb p)
    ("_" ++ stream_int64 (GemmParams.m p) ++ "_" ++ stream_int64 (GemmParams.n p)
         ++ "_" ++ stream_int64 (GemmParams.k p)))%string.
Proof.
  unfold GemmParams.Signature, c10_str; simpl.
  now rewrite !append_assoc, ?append_nil_l, ?append_cons, ?append_nil_l.
Qed.

Lemma batched_signature_eq {T} `{ScalarType T} (p : GemmStridedBatchedParams.t T) :
  GemmStridedBatchedParams.Signature p =
  String (GemmStridedBatchedParams.transa p) (String (GemmStridedBatchedParams.transb p)
    ("_" ++ stream_int64 (GemmStridedBatchedParams.m p)
         ++ "_" ++ stream_int64 (GemmStridedBatchedParams.n p)
         ++ "_" ++ stream_int64 (GemmStridedBatchedParams.k p)
         ++ "_B_" ++ stream_int64 (GemmStridedBatchedParams.batch p)))%string.
Proof.
  unfold GemmStridedBatchedParams.Signature, c10_str; simpl.
  now rewrite !append_assoc, ?append_nil_l, ?append_cons, ?append_nil_l.
Qed.

(** The shape fields can be read back from a signature tail
    [m_n_k ++ rest], whatever follows. *)
Lemma shape_tail_inj (m1 n1 k1 m2 n2 k2 : Z) (r1 r2 : string) :
  (stream_int64 m1 ++ "_" ++ stream_int64 n1 ++ "_" ++ stream_int64 k1 ++ String "_" r1
   = stream_int64 m2 ++ "_" ++ stream_int64 n2 ++ "_" ++ stream_int64 k2 ++ String "_" r2)%string ->
  m1 = m2 /\ n1 = n2 /\ k1 = k2 /\ r1 = r2.
Proof.
  intros E.
  apply split_at_underscore in E as [Em E]; auto using stream_int64_underscore_free.
  apply split_at_underscore in E as [En E]; auto using stream_int64_underscore_free.
  apply split_at_underscore in E as [Ek E]; auto using stream_int64_underscore_free.
  auto using stream_int64_inj.
Qed.

(** ** Signatures *)

Lemma dense_signature_inj {T} `{ScalarType T} (p q : GemmParams.t T) :
  GemmParams.Signature p = GemmParams.Signature q ->
  GemmParams.transa p = GemmParams.transa q /\
  GemmParams.transb p = GemmParams.transb q /\
  GemmParams.m p = GemmParams.m q /\
  GemmParams.n p = GemmParams.n q /\
  GemmParams.k p = GemmParams.k q.
Proof.
  rewrite !dense_signature_eq. intros E. injection E as Ea Eb E.
  apply (f_equal (fun s => (s ++ "_")%string)) in E.
  rewrite !append_assoc in E.
  rewrite !append_nil_l, !append_cons, !append_nil_l in E.
  apply shape_tail_inj in E as (Em & En & Ek & _). auto.
Qed.

(** C4: the dense signature is the concatenation of transa, transb, "_", m,
    "_", n, "_", k (the scenario m=64, n=32, k=16, 'N', 'N' gives
    "NN_64_32_16" whatever the scalars, buffers and leading dimensions
    are); two dense descriptors have the same signature exactly when they
    agree on transa, transb, m, n and k, so alpha, beta, the buffer
    addresses and the leading dimensions never matter and each of the five
    shape fields always does. *)
Theorem dense_signature_shape_key {T} `{ScalarType T} :
  (forall p : GemmParams.t T,
      GemmParams.Signature p =
      (String (GemmParams.transa p) EmptyString
         ++ String (GemmParams.transb p) EmptyString ++ "_"
         ++ stream_int64 (GemmParams.m p) ++ "_" ++ stream_int64 (GemmParams.n p)
         ++ "_" ++ stream_int64 (GemmParams.k p))%string) /\
  (forall (alpha beta : opmath_type) (a b c : N) (lda ldb ldc : Z) (dup : bool),
      GemmParams.Signature
        (GemmParams.mk "N" "N" 64 32 16 alpha a lda b ldb beta c ldc dup)
      = "NN_64_32_16"%string) /\
  (forall p q : GemmParams.t T,
      GemmParams.Signature p = GemmParams.Signature q <->
      GemmParams.transa p = GemmParams.transa q /\
      GemmParams.transb p = GemmParams.transb q /\
      GemmParams.m p = GemmParams.m q /\
      GemmParams.n p = GemmParams.n q /\
      GemmParams.k p = GemmParams.k q).
Proof.
  split; [| split].
  - intros p. now rewrite dense_signature_eq.
  - intros. reflexivity.
  - intros p q. split.
    + apply dense_signature_inj.
    + rewrite !dense_signature_eq. intros (-> & -> & -> & -> & ->). reflexivity.
Qed.

Lemma batched_signature_dense_suffix {T} `{ScalarType T}
    (p : GemmStridedBatchedParams.t T) (q : GemmParams.t T) :
  same_shape p q ->
  GemmStridedBatchedParams.Signature p =
  (GemmParams.Signature q ++ "_B_"
     ++ stream_int64 (GemmStridedBatchedParams.batch p))%string.
Proof.
  intros (Ea & Eb & Em & En & Ek).
  rewrite batched_signature_eq, dense_signature_eq, Ea, Eb, Em, En, Ek.
  now normalize_append.
Qed.

Lemma batched_signature_inj {T} `{ScalarType T}
    (p q : GemmStridedBatchedParams.t T) :
  GemmStridedBatchedParams.Signature p = GemmStridedBatchedParams.Signature q ->
  GemmStridedBatchedParams.batch p = GemmStridedBatchedParams.batch q.
Proof.
  rewrite !batched_signature_eq. intros E. injection E as _ _ E.
  apply shape_tail_inj in E as (_ & _ & _ & E).
  injection E as E. now apply stream_int64_inj.
Qed.

(** C5: the batched signature is the dense signature of the same transa,
    transb, m, n, k followed by "_B_" and the batch count (batch=4 on the
    shape NN_64_32_16 gives "NN_64_32_16_B_4"); it differs from that dense
    signature whenever batch is not 1; and for two batched descriptors
    that agree on the five shape fields the signatures are equal exactly
    when the batch counts are. *)
Theorem batched_signature_batch_suffix {T} `{ScalarType T} :
  (forall (p : GemmStridedBatchedParams.t T) (q : GemmParams.t T),
      same_shape p q ->
      GemmStridedBatchedParams.Signature p =
      (GemmParams.Signature q ++ "_B_"
         ++ stream_int64 (GemmStridedBatchedParams.batch p))%string) /\
  (forall (alpha beta : opmath_type) (a b c : N)
          (lda ldb ldc stride_a stride_b stride_c : Z) (dup : bool),
      GemmStridedBatchedParams.Signature
        (GemmStridedBatchedParams.mk "N" "N" 64 32 16 alpha a lda stride_a
           b ldb stride_b beta c ldc stride_c 4 dup)
      = "NN_64_32_16_B_4"%string) /\
  (forall (p : GemmStridedBatchedParams.t T) (q : GemmParams.t T),
      same_shape p q ->
      GemmStridedBatchedParams.batch p <> 1 ->
      GemmStridedBatchedParams.Signature p <> GemmParams.Signature q) /\
  (forall p q : GemmStridedBatchedParams.t T,
      GemmStridedBatchedParams.transa p = GemmStridedBatchedParams.transa q ->
      GemmStridedBatchedParams.transb p = GemmStridedBatchedParams.transb q ->
      GemmStridedBatchedParams.m p = GemmStridedBatchedParams.m q ->
      GemmStridedBatchedParams.n p = GemmStridedBatchedParams.n q ->
      GemmStridedBatchedParams.k p = GemmStridedBatchedParams.k q ->
      (GemmStridedBatchedParams.Signature p = GemmStridedBatchedParams.Signature q
       <-> GemmStridedBatchedParams.batch p = GemmStridedBatchedParams.batch q)).
Proof.
  split; [| split; [| split]].
  - intros p q. apply batched_signature_dense_suffix.
  - intros. reflexivity.
  - intros p q S _ E.
    rewrite (batched_signature_dense_suffix p q S) in E.
    apply (f_equal String.length) in E.
    rewrite append_length, append_length in E. simpl in E. lia.
  - intros p q Ea Eb Em En Ek. split.
    + apply batched_signature_inj.
    + intros Eb'. rewrite !batched_signature_eq.
      now rewrite Ea, Eb, Em, En, Ek, Eb'.
Qed.

(** The scenario of the specification as an instance of C5. *)
Lemma batched_signature_batch_suffix_witness :
  GemmStridedBatchedParams.Signature sample_batched
  = (GemmParams.Signature sample_dense ++ "_B_" ++ stream_int64 4)%string /\
  GemmStridedBatchedParams.Signature sample_batched
  <> GemmParams.Signature sample_dense /\
  (GemmStridedBatchedParams.Signature sample_batched
   = GemmStridedBatchedParams.Signature sample_batched <-> 4 = 4).
Proof.
  assert (S : same_shape sample_batched sample_dense)
    by (repeat split; reflexivity).
  split; [| split].
  - exact (proj1 batched_signature_batch_suffix sample_batched sample_dense S).
  - apply (proj1 (proj2 (proj2 batched_signature_batch_suffix))
             sample_batched sample_dense S).
    simpl. lia.
  - apply (proj2 (proj2 (proj2 batched_signature_batch_suffix))
             sample_batched sample_batched); reflexivity.
Defined.

(** ** Byte extents *)

Lemma size_t_modulus_pos : 0 < size_t_modulus.
Proof. unfold size_t_modulus; lia. Qed.

Lemma size_mul_to_size_t_r (x y : Z) :
  size_mul x (to_size_t y) = (x * y) mod size_t_modulus.
Proof.
  unfold size_mul, to_size_t. apply Z.mul_mod_idemp_r.
  pose proof size_t_modulus_pos; lia.
Qed.

Lemma wrap_mul_l (x y : Z) :
  (x mod size_t_modulus * y) mod size_t_modulus = (x * y) mod size_t_modulus.
Proof.
  apply Z.mul_mod_idemp_l. pose proof size_t_modulus_pos; lia.
Qed.

(** A left-nested [size_t] product of three operands wraps once. *)
Lemma size_mul3 (s x y : Z) :
  size_mul (size_mul s (to_size_t x)) (to_size_t y)
  = (s * x * y) mod size_t_modulus.
Proof.
  now rewrite size_mul_to_size_t_r, size_mul_to_size_t_r, wrap_mul_l.
Qed.

Lemma size_mul4 (s x y z : Z) :
  size_mul (size_mul (size_mul s (to_size_t x)) (to_size_t y)) (to_size_t z)
  = (s * x * y * z) mod size_t_modulus.
Proof.
  now rewrite size_mul_to_size_t_r, size_mul3, wrap_mul_l.
Qed.

Lemma size_add3 (x y z : Z) :
  size_add (size_add x y) z = (x + y + z) mod size_t_modulus.
Proof.
  unfold size_add. apply Z.add_mod_idemp_l.
  pose proof size_t_modulus_pos; lia.
Qed.

Lemma is_no_trans_spec (ch : ascii) :
  is_no_trans ch = true <-> ch = "n"%char \/ ch = "N"%char.
Proof.
  unfold is_no_trans. rewrite orb_true_iff, !Ascii.eqb_eq. reflexivity.
Qed.

Lemma dense_GetSizeA_mod {T} `{ScalarType T} (p : GemmParams.t T) :
  GemmParams.GetSizeA p =
  (sizeof * GemmParams.lda p *
   (if is_no_trans (GemmParams.transa p) then GemmParams.k p else GemmParams.m p))
  mod size_t_modulus.
Proof. apply size_mul3. Qed.

Lemma dense_GetSizeB_mod {T} `{ScalarType T} (p : GemmParams.t T) :
  GemmParams.GetSizeB p =
  (sizeof * GemmParams.ldb p *
   (if is_no_trans (GemmParams.transb p) then GemmParams.n p else GemmParams.k p))
  mod size_t_modulus.
Proof. apply size_mul3. Qed.

Lemma dense_GetSizeC_mod {T} `{ScalarType T} (p : GemmParams.t T) :
  GemmParams.GetSizeC p =
  (sizeof * GemmParams.ldc p * GemmParams.n p) mod size_t_modulus.
Proof. apply size_mul3. Qed.

(** C6, as stated over the integers, fails for a leading dimension of
    2^62 on 4-byte elements: the product 4 * 2^62 * 1 is 2^64, and
    GetSizeA, computed in [size_t], is 0. *)
Lemma dense_byte_extent_wraps_counterexample :
  GemmParams.GetSizeA wide_dense = 0 /\
  sizeof * GemmParams.lda wide_dense * GemmParams.k wide_dense = 2 ^ 64 /\
  is_no_trans (GemmParams.transa wide_dense) = true /\
  in_int64 (GemmParams.lda wide_dense) = true.
Proof.
  split; [| split; [| split]]; vm_compute; reflexivity.
Qed.

(** C6, amended: GetSizeA is sizeof(T) * lda * (k when transa is 'n' or
    'N', else m) reduced modulo 2^64, the products being computed in
    [size_t]; GetSizeB is sizeof(T) * ldb * (n when transb is 'n' or 'N',
    else k) and GetSizeC is sizeof(T) * ldc * n, reduced the same way;
    every other transpose character takes the transposed branch;
    GetSize(false) is GetSizeC and GetSize(true) is GetSizeA + GetSizeB +
    GetSizeC modulo 2^64; and whenever a product or the sum lies in
    [0, 2^64) the value is that integer itself. *)
Theorem dense_byte_extents {T} `{ScalarType T} (p : GemmParams.t T) :
  (GemmParams.GetSizeA p =
     (sizeof * GemmParams.lda p *
      (if is_no_trans (GemmParams.transa p) then GemmParams.k p else GemmParams.m p))
     mod size_t_modulus /\
   GemmParams.GetSizeB p =
     (sizeof * GemmParams.ldb p *
      (if is_no_trans (GemmParams.transb p) then GemmParams.n p else GemmParams.k p))
     mod size_t_modulus /\
   GemmParams.GetSizeC p =
     (sizeof * GemmParams.ldc p * GemmParams.n p) mod size_t_modulus) /\
  (forall ch : ascii,
      (ch = "n"%char \/ ch = "N"%char -> is_no_trans ch = true) /\
      (ch <> "n"%char -> ch <> "N"%char -> is_no_trans ch = false)) /\
  GemmParams.GetSize p false = GemmParams.GetSizeC p /\
  GemmParams.GetSize p true =
    (GemmParams.GetSizeA p + GemmParams.GetSizeB p + GemmParams.GetSizeC p)
    mod size_t_modulus /\
  (forall opA : Z,
      opA = (if is_no_trans (GemmParams.transa p)
             then GemmParams.k p else GemmParams.m p) ->
      0 <= sizeof * GemmParams.lda p * opA < size_t_modulus ->
      GemmParams.GetSizeA p = sizeof * GemmParams.lda p * opA) /\
  (forall opB : Z,
      opB = (if is_no_trans (GemmParams.transb p)
             then GemmParams.n p else GemmParams.k p) ->
      0 <= sizeof * GemmParams.ldb p * opB < size_t_modulus ->
      GemmParams.GetSizeB p = sizeof * GemmParams.ldb p * opB) /\
  (0 <= sizeof * GemmParams.ldc p * GemmParams.n p < size_t_modulus ->
   GemmParams.GetSizeC p = sizeof * GemmParams.ldc p * GemmParams.n p) /\
  (GemmParams.GetSizeA p + GemmParams.GetSizeB p + GemmParams.GetSizeC p
     < size_t_modulus ->
   GemmParams.GetSize p true =
     GemmParams.GetSizeA p + GemmParams.GetSizeB p + GemmParams.GetSizeC p).
Proof.
  assert (R : forall x, 0 <= x mod size_t_modulus < size_t_modulus).
  { intros x. apply Z.mod_pos_bound, size_t_modulus_pos. }
  assert (S : GemmParams.GetSize p true =
    (GemmParams.GetSizeA p + GemmParams.GetSizeB p + GemmParams.GetSizeC p)
    mod size_t_modulus).
  { unfold GemmParams.GetSize. rewrite size_add3. f_equal. lia. }
  split; [| split; [| split; [| split; [| split; [| split; [| split]]]]]].
  - split; [apply dense_GetSizeA_mod |].
    split; [apply dense_GetSizeB_mod | apply dense_GetSizeC_mod].
  - intros ch. split.
    + intros E. now apply is_no_trans_spec.
    + intros Hn HN. destruct (is_no_trans ch) eqn:E; [| reflexivity].
      apply is_no_trans_spec in E as [E | E]; contradiction.
  - reflexivity.
  - exact S.
  - intros opA -> Hr. rewrite dense_GetSizeA_mod. now apply Z.mod_small.
  - intros opB -> Hr. rewrite dense_GetSizeB_mod. now apply Z.mod_small.
  - intros Hr. rewrite dense_GetSizeC_mod. now apply Z.mod_small.
  - intros Hr. rewrite S. apply Z.mod_small.
    pose proof (R (sizeof * GemmParams.lda p *
      (if is_no_trans (GemmParams.transa p) then GemmParams.k p else GemmParams.m p))).
    pose proof (R (sizeof * GemmParams.ldb p *
      (if is_no_trans (GemmParams.transb p) then GemmParams.n p else GemmParams.k p))).
    pose proof (R (sizeof * GemmParams.ldc p * GemmParams.n p)).
    rewrite <- dense_GetSizeA_mod, <- dense_GetSizeB_mod, <- dense_GetSizeC_mod in *.
    lia.
Qed.

(** The dense scenario: 4-byte elements, lda=64, ldb=16, ldc=64. *)
Lemma dense_byte_extents_witness :
  GemmParams.GetSizeA sample_dense = 4 * 64 * 16 /\
  GemmParams.GetSizeB sample_dense = 4 * 16 * 32 /\
  GemmParams.GetSizeC sample_dense = 4 * 64 * 32 /\
  GemmParams.GetSize sample_dense true =
    GemmParams.GetSizeA sample_dense + GemmParams.GetSizeB sample_dense
    + GemmParams.GetSizeC sample_dense.
Proof.
  pose proof (dense_byte_extents sample_dense) as (_ & _ & _ & _ & A & B & C & S).
  split; [| split; [| split]].
  - apply (A 16); [reflexivity | vm_compute; split; [discriminate | reflexivity]].
  - apply (B 32); [reflexivity | vm_compute; split; [discriminate | reflexivity]].
  - apply C. vm_compute; split; [discriminate | reflexivity].
  - apply S. vm_compute. reflexivity.
Defined.

Lemma batched_GetSizeA_dense {T} `{ScalarType T}
    (p : GemmStridedBatchedParams.t T) (q : GemmParams.t T) :
  same_shape p q -> same_leading_dims p q ->
  GemmStridedBatchedParams.GetSizeA p =
  size_mul (GemmParams.GetSizeA q) (to_size_t (GemmStridedBatchedParams.batch p)).
Proof.
  intros (Ea & _ & Em & _ & Ek) (El & _).
  unfold GemmStridedBatchedParams.GetSizeA, GemmParams.GetSizeA.
  now rewrite Ea, Em, Ek, El.
Qed.

Lemma batched_GetSizeB_dense {T} `{ScalarType T}
    (p : GemmStridedBatchedParams.t T) (q : GemmParams.t T) :
  same_shape p q -> same_leading_dims p q ->
  GemmStridedBatchedParams.GetSizeB p =
  size_mul (GemmParams.GetSizeB q) (to_size_t (GemmStridedBatchedParams.batch p)).
Proof.
  intros (_ & Eb & _ & En & Ek) (_ & El & _).
  unfold GemmStridedBatchedParams.GetSizeB, GemmParams.GetSizeB.
  now rewrite Eb, En, Ek, El.
Qed.

Lemma batched_GetSizeC_dense {T} `{ScalarType T}
    (p : GemmStridedBatchedParams.t T) (q : GemmParams.t T) :
  same_shape p q -> same_leading_dims p q ->
  GemmStridedBatchedParams.GetSizeC p =
  size_mul (GemmParams.GetSizeC q) (to_size_t (GemmStridedBatchedParams.batch p)).
Proof.
  intros (_ & _ & _ & En & _) (_ & _ & El).
  unfold GemmStridedBatchedParams.GetSizeC, GemmParams.GetSizeC.
  now rewrite En, El.
Qed.

Lemma dense_sizes_in_range {T} `{ScalarType T} (q : GemmParams.t T) :
  0 <= GemmParams.GetSizeA q < size_t_modulus /\
  0 <= GemmParams.GetSizeB q < size_t_modulus /\
  0 <= GemmParams.GetSizeC q < size_t_modulus.
Proof.
  unfold GemmParams.GetSizeA, GemmParams.GetSizeB, GemmParams.GetSizeC, size_mul.
  repeat split; apply Z.mod_pos_bound, size_t_modulus_pos.
Qed.

Lemma size_mul_scales (dense batch : Z) :
  0 <= dense < size_t_modulus ->
  scales_with_batch (size_mul dense (to_size_t batch)) dense batch.
Proof.
  intros R. rewrite size_mul_to_size_t_r, Z.mul_comm.
  split; [reflexivity | split].
  - intros ->. rewrite Z.mul_1_l. now apply Z.mod_small.
  - intros Hb Hs. apply Z.mod_small. nia.
Qed.

(** C7, as stated over the integers, fails for a batch count of 2^62:
    the dense extent of A is 4 bytes, 2^62 times it is 2^64, and the
    batched GetSizeA, computed in [size_t], is 0. *)
Lemma batched_byte_extent_wraps_counterexample :
  same_shape many_batched unit_dense /\
  same_leading_dims many_batched unit_dense /\
  GemmParams.GetSizeA unit_dense = 4 /\
  GemmStridedBatchedParams.GetSizeA many_batched = 0 /\
  GemmStridedBatchedParams.batch many_batched * GemmParams.GetSizeA unit_dense = 2 ^ 64 /\
  in_int64 (GemmStridedBatchedParams.batch many_batched) = true.
Proof.
  split; [repeat split; reflexivity |].
  split; [repeat split; reflexivity |].
  split; [| split; [| split]]; vm_compute; reflexivity.
Qed.

(** C7, amended: for a batched descriptor and the dense descriptor of the
    same transa, transb, m, n, k, lda, ldb, ldc, each of GetSizeA,
    GetSizeB, GetSizeC of the batched one is batch times the dense extent
    reduced modulo 2^64 (the product is computed in [size_t]); it is the
    dense extent itself when batch is 1, and the integer batch * extent
    whenever batch is not negative and that product is below 2^64. *)
Theorem batched_byte_extents_scale {T} `{ScalarType T}
    (p : GemmStridedBatchedParams.t T) (q : GemmParams.t T) :
  same_shape p q -> same_leading_dims p q ->
  scales_with_batch (GemmStridedBatchedParams.GetSizeA p) (GemmParams.GetSizeA q)
                    (GemmStridedBatchedParams.batch p) /\
  scales_with_batch (GemmStridedBatchedParams.GetSizeB p) (GemmParams.GetSizeB q)
                    (GemmStridedBatchedParams.batch p) /\
  scales_with_batch (GemmStridedBatchedParams.GetSizeC p) (GemmParams.GetSizeC q)
                    (GemmStridedBatchedParams.batch p).
Proof.
  intros S L. destruct (dense_sizes_in_range q) as (RA & RB & RC).
  rewrite (batched_GetSizeA_dense p q S L), (batched_GetSizeB_dense p q S L),
    (batched_GetSizeC_dense p q S L).
  auto using size_mul_scales.
Qed.

(** The batched scenario: batch=4 gives four times the dense extents. *)
Lemma batched_byte_extents_scale_witness :
  GemmStridedBatchedParams.GetSizeA sample_batched = 4 * GemmParams.GetSizeA sample_dense /\
  GemmStridedBatchedParams.GetSizeB sample_batched = 4 * GemmParams.GetSizeB sample_dense /\
  GemmStridedBatchedParams.GetSizeC sample_batched = 4 * GemmParams.GetSizeC sample_dense.
Proof.
  assert (S : same_shape sample_batched sample_dense) by (repeat split; reflexivity).
  assert (L : same_leading_dims sample_batched sample_dense)
    by (repeat split; reflexivity).
  destruct (batched_byte_extents_scale sample_batched sample_dense S L)
    as ((_ & _ & A) & (_ & _ & B) & (_ & _ & C)).
  split; [| split]; [apply A | apply B | apply C]; vm_compute; congruence.
Defined.

(** ** The allocator *)

Lemma released_app (l1 l2 : list AllocatorCall) :
  released (l1 ++ l2) = released l1 ++ released l2.
Proof. apply flat_map_app. Qed.

Section Allocator.
Context {T : Type} `{ScalarType T}.

Lemma raw_alloc_inv (nbytes : Z) (d d' : Device T) (ptr : N) :
  raw_alloc nbytes d = inr (ptr, d') ->
  heap d !! ptr = None /\ ptr <> 0%N /\ nbytes <= free_bytes d /\
  d' = mkDevice (current_device d) (free_bytes d - nbytes)
         (<[ ptr := mkBlock nbytes (replicate (cells_of_bytes nbytes) None) ]> (heap d))
         (calls d ++ [RawAlloc nbytes ptr]).
Proof.
  unfold raw_alloc. destruct (free_bytes d <? nbytes) eqn:F; [discriminate |].
  intros [= <- <-].
  pose proof (is_fresh ({[ 0%N ]} ∪ dom (heap d))) as Fr.
  apply Z.ltb_ge in F.
  repeat split; auto.
  - apply not_elem_of_dom. set_solver.
  - set_solver.
Qed.

Lemma raw_alloc_succeeds (nbytes : Z) (d : Device T) :
  nbytes <= free_bytes d ->
  exists ptr d', raw_alloc nbytes d = inr (ptr, d').
Proof.
  intros F. unfold raw_alloc.
  destruct (free_bytes d <? nbytes) eqn:E; [apply Z.ltb_lt in E; lia |].
  eauto.
Qed.

Lemma memcpyAsync_inv (dst src : N) (dd sd nbytes : Z) (d d' : Device T) (u : unit) :
  memcpyAsync dst dd src sd nbytes d = inr (u, d') ->
  exists sblk dblk,
    heap d !! src = Some sblk /\ heap d !! dst = Some dblk /\
    nbytes <= block_bytes sblk /\ nbytes <= block_bytes dblk /\
    d' = mkDevice (current_device d) (free_bytes d)
           (<[ dst := mkBlock (block_bytes dblk)
                        (take (cells_of_bytes nbytes) (block_cells sblk)
                         ++ drop (cells_of_bytes nbytes) (block_cells dblk)) ]> (heap d))
           (calls d ++ [MemcpyAsync dst dd src sd nbytes]).
Proof.
  unfold memcpyAsync.
  destruct (heap d !! src) as [sblk|] eqn:Es; [| discriminate].
  destruct (heap d !! dst) as [dblk|] eqn:Ed; [| discriminate].
  destruct ((nbytes <=? block_bytes sblk) && (nbytes <=? block_bytes dblk)) eqn:B;
    [| discriminate].
  intros [= <-]. apply andb_true_iff in B as [B1 B2].
  apply Z.leb_le in B1, B2. eauto 10.
Qed.

Lemma heap_preserved_trans (d1 d2 d3 : Device T) :
  heap_preserved d1 d2 -> heap_preserved d2 d3 -> heap_preserved d1 d3.
Proof. intros P Q q blk L. now apply Q, P. Qed.

Lemma raw_alloc_preserves (nbytes : Z) (d d' : Device T) (ptr : N) :
  raw_alloc nbytes d = inr (ptr, d') -> heap_preserved d d'.
Proof.
  intros A. apply raw_alloc_inv in A as (Fr & _ & _ & ->).
  intros q blk L; simpl.
  rewrite lookup_insert_ne; [exact L | congruence].
Qed.

(** An allocation followed by a copy into the new block. *)
Lemma alloc_then_copy (nbytes dd sd : Z) (src new_c : N) (d d1 d2 : Device T) (u : unit) :
  raw_alloc nbytes d = inr (new_c, d1) ->
  memcpyAsync new_c dd src sd nbytes d1 = inr (u, d2) ->
  heap_preserved d d2 /\
  calls d2 = calls d ++ [RawAlloc nbytes new_c; MemcpyAsync new_c dd src sd nbytes] /\
  heap d !! new_c = None /\ new_c <> 0%N /\
  free_bytes d2 = free_bytes d - nbytes /\
  current_device d2 = current_device d /\
  exists blk : Block T,
    heap d2 !! new_c = Some blk /\ block_bytes blk = nbytes /\
    forall sblk : Block T,
      heap d !! src = Some sblk ->
      block_cells blk = take (cells_of_bytes nbytes) (block_cells sblk).
Proof.
  intros A C.
  apply raw_alloc_inv in A as (Fr & Nz & _ & ->).
  apply memcpyAsync_inv in C as (sblk & dblk & Ls & Ld & _ & _ & ->).
  simpl in *. rewrite lookup_insert_eq in Ld. injection Ld as <-. simpl.
  split; [| split; [| split; [| split; [| split; [| split]]]]]; auto.
  - intros q blk L; simpl. rewrite !lookup_insert_ne by congruence. exact L.
  - now rewrite <- app_assoc.
  - eexists. rewrite lookup_insert_eq. split; [reflexivity |].
    split; [reflexivity |]. intros s Ls'. simpl.
    rewrite lookup_insert_ne in Ls by congruence.
    rewrite Ls' in Ls. injection Ls as ->.
    rewrite drop_replicate, Nat.sub_diag. simpl. now rewrite app_nil_r.
Qed.

Lemma deep_copy_calls_effect (src_c : N) (c_size a_size b_size : Z) (dup : bool)
    (d d' : Device T) (new_c : N) (new_ab : option (N * N)) :
  deep_copy_calls src_c c_size a_size b_size dup d = inr ((new_c, new_ab), d') ->
  (if dup then exists new_a new_b, new_ab = Some (new_a, new_b) /\
                deep_copy_effect d d' dup src_c new_c new_a new_b c_size a_size b_size
   else new_ab = None /\
        forall new_a new_b,
          deep_copy_effect d d' dup src_c new_c new_a new_b c_size a_size b_size).
Proof.
  unfold deep_copy_calls, bind, GetDevice, ret.
  destruct (current_device d) as [device|] eqn:Dv; [| discriminate].
  destruct (raw_alloc c_size d) as [e | [pc d1]] eqn:A1; [discriminate |].
  destruct (memcpyAsync pc device src_c device c_size d1) as [e | [u d2]] eqn:C1;
    [discriminate |].
  destruct (alloc_then_copy _ _ _ _ _ _ _ _ _ A1 C1)
    as (P & Cs & Fr & Nz & _ & _ & blk & Lb & Bb & Cells).
  destruct dup.
  - destruct (raw_alloc a_size d2) as [e | [pa d3]] eqn:A2; [discriminate |].
    destruct (raw_alloc b_size d3) as [e | [pb d4]] eqn:A3; [discriminate |].
    intros [= <- <- <-]. exists pa, pb. split; [reflexivity |].
    pose proof (raw_alloc_preserves _ _ _ _ A2) as P2.
    pose proof (raw_alloc_preserves _ _ _ _ A3) as P3.
    apply raw_alloc_inv in A2 as (Fa & _ & _ & E3).
    apply raw_alloc_inv in A3 as (Fb & _ & _ & E4).
    assert (Nac : pa <> pc) by congruence.
    assert (Lb3 : heap d3 !! pc = Some blk) by now apply P2.
    assert (Nbc : pb <> pc) by congruence.
    assert (La3 : heap d3 !! pa
                  = Some (mkBlock a_size (replicate (cells_of_bytes a_size) None))).
    { rewrite E3; simpl. apply lookup_insert_eq. }
    assert (Nab : pa <> pb) by congruence.
    split; [| split; [| split; [| split; [| split]]]]; auto.
    + eauto using heap_preserved_trans.
    + exists device. rewrite E4; simpl. rewrite E3; simpl. rewrite Cs.
      now rewrite <- !app_assoc.
    + exists blk. split; [now apply P3 | auto].
    + intros _.
      assert (Na : heap d !! pa = None).
      { destruct (heap d !! pa) as [x|] eqn:L; [| reflexivity].
        apply P in L. congruence. }
      assert (Nb : heap d !! pb = None).
      { destruct (heap d !! pb) as [x|] eqn:L; [| reflexivity].
        apply P, P2 in L. congruence. }
      split; [exact Na | split; [exact Nb |]].
      split; [exact Nac | split; [exact Nbc | split; [exact Nab |]]].
      split; [now apply P3 |].
      rewrite E4; simpl. apply lookup_insert_eq.
  - intros [= <- <- <-]. split; [reflexivity |]. intros new_a new_b.
    split; [| split; [| split; [| split; [| split]]]]; auto.
    + exists device. now rewrite Cs.
    + exists blk. auto.
    + discriminate.
Qed.
(** A failing allocator call throws before it changes anything. *)
Lemma raw_alloc_fails (nbytes : Z) (d d' : Device T) (e : Error) :
  raw_alloc nbytes d = inl (e, d') -> d' = d.
Proof.
  unfold raw_alloc. destruct (free_bytes d <? nbytes); [| discriminate].
  now intros [= _ <-].
Qed.

Lemma memcpyAsync_fails (dst src : N) (dd sd nbytes : Z) (d d' : Device T) (e : Error) :
  memcpyAsync dst dd src sd nbytes d = inl (e, d') -> d' = d.
Proof.
  unfold memcpyAsync.
  destruct (heap d !! src) as [sblk|]; [| now intros [= _ <-]].
  destruct (heap d !! dst) as [dblk|]; [| now intros [= _ <-]].
  destruct ((nbytes <=? block_bytes sblk) && (nbytes <=? block_bytes dblk));
    [discriminate | now intros [= _ <-]].
Qed.

(** A deep copy that throws: whatever call failed, the blocks that were
    live are as they were and nothing was released. *)
Lemma deep_copy_calls_failure (src_c : N) (c_size a_size b_size : Z) (dup : bool)
    (d d' : Device T) (e : Error) :
  deep_copy_calls src_c c_size a_size b_size dup d = inl (e, d') ->
  heap_preserved d d' /\ released (calls d') = released (calls d).
Proof.
  unfold deep_copy_calls, bind, GetDevice, ret.
  destruct (current_device d) as [device|] eqn:Dv.
  2:{ intros [= _ <-]. split; [intros q blk L; exact L | reflexivity]. }
  destruct (raw_alloc c_size d) as [[e1 d1] | [pc d1]] eqn:A1.
  { apply raw_alloc_fails in A1 as ->. intros [= _ <-].
    split; [intros q blk L; exact L | reflexivity]. }
  destruct (memcpyAsync pc device src_c device c_size d1) as [[e2 d2] | [u d2]] eqn:C1.
  { apply memcpyAsync_fails in C1 as ->. intros [= _ <-].
    split; [exact (raw_alloc_preserves _ _ _ _ A1) |].
    apply raw_alloc_inv in A1 as (_ & _ & _ & ->). simpl.
    rewrite released_app. simpl. apply app_nil_r. }
  destruct (alloc_then_copy _ _ _ _ _ _ _ _ _ A1 C1) as (P & Cs & _).
  assert (R2 : released (calls d2) = released (calls d)).
  { rewrite Cs, released_app. simpl. apply app_nil_r. }
  destruct dup; [| discriminate].
  destruct (raw_alloc a_size d2) as [[e3 d3] | [pa d3]] eqn:A2.
  { apply raw_alloc_fails in A2 as ->. intros [= _ <-]. now split. }
  destruct (raw_alloc b_size d3) as [[e4 d4] | [pb d4]] eqn:A3; [| discriminate].
  apply raw_alloc_fails in A3 as ->. intros [= _ <-].
  split; [exact (heap_preserved_trans _ _ _ P (raw_alloc_preserves _ _ _ _ A2)) |].
  apply raw_alloc_inv in A2 as (_ & _ & _ & ->). simpl.
  rewrite released_app, R2. simpl. apply app_nil_r.
Qed.
End Allocator.

(** ** Deep copy *)

Lemma deep_copy_calls_succeeds_iff {T} `{ScalarType T} (src_c : N)
    (c_size a_size b_size : Z) (dup : bool) (d : Device T) (src : Block T) :
  heap d !! src_c = Some src ->
  (exists r d', deep_copy_calls src_c c_size a_size b_size dup d = inr (r, d')) <->
  (current_device d <> None /\
   c_size <= free_bytes d /\
   c_size <= block_bytes src /\
   (dup = true ->
    a_size <= free_bytes d - c_size /\
    b_size <= free_bytes d - c_size - a_size)).
Proof.
  intros Ls. unfold deep_copy_calls, bind, GetDevice, ret.
  destruct (current_device d) as [device|] eqn:Dv.
  2:{ split; [intros (r & d' & E); discriminate E | intros (N & _); now elim N]. }
  unfold raw_alloc at 1.
  destruct (free_bytes d <? c_size) eqn:Fc.
  { apply Z.ltb_lt in Fc.
    split; [intros (r & d' & E); discriminate E | intros (_ & F & _); lia]. }
  apply Z.ltb_ge in Fc.
  pose proof (is_fresh ({[ 0%N ]} ∪ dom (heap d))) as Fr.
  set (pc := fresh ({[ 0%N ]} ∪ dom (heap d))) in *.
  assert (Npc : pc <> src_c).
  { intros ->. apply Fr. apply elem_of_union_r. apply elem_of_dom. eauto. }
  unfold memcpyAsync; simpl.
  rewrite lookup_insert_ne by exact Npc. rewrite Ls, lookup_insert_eq; simpl.
  rewrite Z.leb_refl, andb_true_r.
  destruct (c_size <=? block_bytes src) eqn:Bs.
  2:{ apply Z.leb_gt in Bs.
      split; [intros (r & d' & E); discriminate E | intros (_ & _ & F & _); lia]. }
  apply Z.leb_le in Bs.
  destruct dup.
  - unfold raw_alloc; simpl.
    destruct (free_bytes d - c_size <? a_size) eqn:Fa.
    { apply Z.ltb_lt in Fa.
      split; [intros (r & d' & E); discriminate E |].
      intros (_ & _ & _ & F). destruct (F eq_refl). lia. }
    simpl.
    destruct (free_bytes d - c_size - a_size <? b_size) eqn:Fb.
    { apply Z.ltb_lt in Fb.
      split; [intros (r & d' & E); discriminate E |].
      intros (_ & _ & _ & F). destruct (F eq_refl). lia. }
    apply Z.ltb_ge in Fa, Fb.
    split; [| eauto].
    intros _. split; [discriminate | split; [exact Fc | split; [exact Bs |]]].
    intros _. split; assumption.
  - split; [| eauto].
    intros _. split; [discriminate | split; [exact Fc | split; [exact Bs |]]].
    discriminate.
Qed.

Lemma dense_DeepCopy_calls {T} `{ScalarType T} (raw p : GemmParams.t T) (dup : bool)
    (d : Device T) :
  GemmParams.DeepCopy raw p dup d =
  match deep_copy_calls (GemmParams.c p) (GemmParams.GetSizeC p)
          (GemmParams.GetSizeA p) (GemmParams.GetSizeB p) dup d with
  | inl e => inl e
  | inr ((new_c, new_ab), d') => inr (dense_copy_of p new_c new_ab, d')
  end.
Proof.
  unfold GemmParams.DeepCopy, deep_copy_calls, bind, GetDevice, ret.
  destruct (current_device d) as [device|]; [| reflexivity].
  destruct (raw_alloc (GemmParams.GetSizeC p) d) as [e | [pc d1]]; [reflexivity |].
  simpl.
  destruct (memcpyAsync pc device (GemmParams.c p) device (GemmParams.GetSizeC p) d1)
    as [e | [u d2]]; [reflexivity |].
  destruct dup; [| reflexivity].
  destruct (raw_alloc (GemmParams.GetSizeA p) d2) as [e | [pa d3]]; [reflexivity |].
  destruct (raw_alloc (GemmParams.GetSizeB p) d3) as [e | [pb d4]]; reflexivity.
Qed.

Lemma batched_DeepCopy_calls {T} `{ScalarType T} (raw p : GemmStridedBatchedParams.t T)
    (dup : bool) (d : Device T) :
  GemmStridedBatchedParams.DeepCopy raw p dup d =
  match deep_copy_calls (GemmStridedBatchedParams.c p)
          (GemmStridedBatchedParams.GetSizeC p)
          (GemmStridedBatchedParams.GetSizeA p)
          (GemmStridedBatchedParams.GetSizeB p) dup d with
  | inl e => inl e
  | inr ((new_c, new_ab), d') => inr (batched_copy_of p new_c new_ab, d')
  end.
Proof.
  unfold GemmStridedBatchedParams.DeepCopy, deep_copy_calls, bind, GetDevice, ret.
  destruct (current_device d) as [device|]; [| reflexivity].
  destruct (raw_alloc (GemmStridedBatchedParams.GetSizeC p) d) as [e | [pc d1]];
    [reflexivity |].
  simpl.
  destruct (memcpyAsync pc device (GemmStridedBatchedParams.c p) device
              (GemmStridedBatchedParams.GetSizeC p) d1)
    as [e | [u d2]]; [reflexivity |].
  destruct dup; [| reflexivity].
  destruct (raw_alloc (GemmStridedBatchedParams.GetSizeA p) d2) as [e | [pa d3]];
    [reflexivity |].
  destruct (raw_alloc (GemmStridedBatchedParams.GetSizeB p) d3) as [e | [pb d4]];
    reflexivity.
Qed.

(** A successful dense deep copy, taken apart. *)
Lemma dense_DeepCopy_inv {T} `{ScalarType T} (raw p copy : GemmParams.t T) (dup : bool)
    (d d' : Device T) :
  GemmParams.DeepCopy raw p dup d = inr (copy, d') ->
  exists new_c new_ab,
    copy = dense_copy_of p new_c new_ab /\
    (dup = true <-> new_ab <> None) /\
    deep_copy_effect d d' dup (GemmParams.c p) (GemmParams.c copy)
      (GemmParams.a copy) (GemmParams.b copy)
      (GemmParams.GetSizeC p) (GemmParams.GetSizeA p) (GemmParams.GetSizeB p).
Proof.
  rewrite dense_DeepCopy_calls.
  destruct (deep_copy_calls _ _ _ _ _ _) as [e | [[new_c new_ab] d1]] eqn:E;
    [discriminate |].
  intros [= <- <-]. exists new_c, new_ab.
  apply deep_copy_calls_effect in E.
  destruct dup.
  - destruct E as (pa & pb & -> & E). simpl.
    split; [reflexivity | split; [| exact E]].
    split; [discriminate | reflexivity].
  - destruct E as (-> & E). simpl.
    split; [reflexivity | split; [| apply E]].
    split; [discriminate | intros N; now elim N].
Qed.

(** A successful batched deep copy, taken apart. *)
Lemma batched_DeepCopy_inv {T} `{ScalarType T}
    (raw p copy : GemmStridedBatchedParams.t T)
    (dup : bool) (d d' : Device T) :
  GemmStridedBatchedParams.DeepCopy raw p dup d = inr (copy, d') ->
  exists new_c new_ab,
    copy = batched_copy_of p new_c new_ab /\
    (dup = true <-> new_ab <> None) /\
    deep_copy_effect d d' dup (GemmStridedBatchedParams.c p)
      (GemmStridedBatchedParams.c copy)
      (GemmStridedBatchedParams.a copy) (GemmStridedBatchedParams.b copy)
      (GemmStridedBatchedParams.GetSizeC p) (GemmStridedBatchedParams.GetSizeA p)
      (GemmStridedBatchedParams.GetSizeB p).
Proof.
  rewrite batched_DeepCopy_calls.
  destruct (deep_copy_calls _ _ _ _ _ _) as [e | [[new_c new_ab] d1]] eqn:E;
    [discriminate |].
  intros [= <- <-]. exists new_c, new_ab.
  apply deep_copy_calls_effect in E.
  destruct dup.
  - destruct E as (pa & pb & -> & E). simpl.
    split; [reflexivity | split; [| exact E]].
    split; [discriminate | reflexivity].
  - destruct E as (-> & E). simpl.
    split; [reflexivity | split; [| apply E]].
    split; [discriminate | intros N; now elim N].
Qed.

(** C8: a deep copy never modifies the receiver.  The receiver itself is
    a constant of the method.  On the device, whether the call returns or
    throws, every block that was live before the call, the receiver's
    buffers among them, is left as it was, and nothing is released.  A
    call that returns gives a descriptor whose transpose tags,
    dimensions, leading dimensions (and batch strides and count) and
    scalars are the receiver's, whatever the storage obtained from [new]
    held, and whose input pointers are the receiver's unless inputs are
    duplicated; its calls are allocations and one copy into the new output
    block; the new output block was not live before, has GetSizeC() bytes
    and holds the leading elements of the receiver's output block.  And
    the call does return on a device that has a current device index,
    the free memory for the requests, and a live output block of at least
    GetSizeC() bytes. *)
Theorem DeepCopy_frame {T} `{ScalarType T} :
  (forall (raw p copy : GemmParams.t T) (dup : bool) (d d' : Device T),
      GemmParams.DeepCopy raw p dup d = inr (copy, d') ->
      (GemmParams.transa copy = GemmParams.transa p /\
       GemmParams.transb copy = GemmParams.transb p /\
       GemmParams.m copy = GemmParams.m p /\
       GemmParams.n copy = GemmParams.n p /\
       GemmParams.k copy = GemmParams.k p /\
       GemmParams.alpha copy = GemmParams.alpha p /\
       GemmParams.beta copy = GemmParams.beta p /\
       GemmParams.lda copy = GemmParams.lda p /\
       GemmParams.ldb copy = GemmParams.ldb p /\
       GemmParams.ldc copy = GemmParams.ldc p) /\
      (dup = false ->
       GemmParams.a copy = GemmParams.a p /\ GemmParams.b copy = GemmParams.b p) /\
      deep_copy_effect d d' dup (GemmParams.c p) (GemmParams.c copy)
        (GemmParams.a copy) (GemmParams.b copy)
        (GemmParams.GetSizeC p) (GemmParams.GetSizeA p) (GemmParams.GetSizeB p)) /\
  (forall (raw p copy : GemmStridedBatchedParams.t T) (dup : bool) (d d' : Device T),
      GemmStridedBatchedParams.DeepCopy raw p dup d = inr (copy, d') ->
      (GemmStridedBatchedParams.transa copy = GemmStridedBatchedParams.transa p /\
       GemmStridedBatchedParams.transb copy = GemmStridedBatchedParams.transb p /\
       GemmStridedBatchedParams.m copy = GemmStridedBatchedParams.m p /\
       GemmStridedBatchedParams.n copy = GemmStridedBatchedParams.n p /\
       GemmStridedBatchedParams.k copy = GemmStridedBatchedParams.k p /\
       GemmStridedBatchedParams.alpha copy = GemmStridedBatchedParams.alpha p /\
       GemmStridedBatchedParams.beta copy = GemmStridedBatchedParams.beta p /\
       GemmStridedBatchedParams.lda copy = GemmStridedBatchedParams.lda p /\
       GemmStridedBatchedParams.ldb copy = GemmStridedBatchedParams.ldb p /\
       GemmStridedBatchedParams.ldc copy = GemmStridedBatchedParams.ldc p /\
       GemmStridedBatchedParams.stride_a copy = GemmStridedBatchedParams.stride_a p /\
       GemmStridedBatchedParams.stride_b copy = GemmStridedBatchedParams.stride_b p /\
       GemmStridedBatchedParams.stride_c copy = GemmStridedBatchedParams.stride_c p /\
       GemmStridedBatchedParams.batch copy = GemmStridedBatchedParams.batch p) /\
      (dup = false ->
       GemmStridedBatchedParams.a copy = GemmStridedBatchedParams.a p /\
       GemmStridedBatchedParams.b copy = GemmStridedBatchedParams.b p) /\
      deep_copy_effect d d' dup (GemmStridedBatchedParams.c p)
        (GemmStridedBatchedParams.c copy)
        (GemmStridedBatchedParams.a copy) (GemmStridedBatchedParams.b copy)
        (GemmStridedBatchedParams.GetSizeC p) (GemmStridedBatchedParams.GetSizeA p)
        (GemmStridedBatchedParams.GetSizeB p)) /\
  (forall (raw p : GemmParams.t T) (dup : bool) (d d' : Device T) (e : Error),
      GemmParams.DeepCopy raw p dup d = inl (e, d') ->
      heap_preserved d d' /\ released (calls d') = released (calls d)) /\
  (forall (raw p : GemmStridedBatchedParams.t T) (dup : bool) (d d' : Device T)
          (e : Error),
      GemmStridedBatchedParams.DeepCopy raw p dup d = inl (e, d') ->
      heap_preserved d d' /\ released (calls d') = released (calls d)) /\
  (forall (raw p : GemmParams.t T) (dup : bool) (d : Device T) (device : Z)
          (src : Block T),
      current_device d = Some device ->
      heap d !! GemmParams.c p = Some src ->
      GemmParams.GetSizeC p <= block_bytes src ->
      GemmParams.GetSizeC p <= free_bytes d ->
      (dup = true ->
       GemmParams.GetSizeA p <= free_bytes d - GemmParams.GetSizeC p /\
       GemmParams.GetSizeB p
       <= free_bytes d - GemmParams.GetSizeC p - GemmParams.GetSizeA p) ->
      exists (copy : GemmParams.t T) (d' : Device T),
        GemmParams.DeepCopy raw p dup d = inr (copy, d')) /\
  (forall (raw p : GemmStridedBatchedParams.t T) (dup : bool) (d : Device T)
          (device : Z) (src : Block T),
      current_device d = Some device ->
      heap d !! GemmStridedBatchedParams.c p = Some src ->
      GemmStridedBatchedParams.GetSizeC p <= block_bytes src ->
      GemmStridedBatchedParams.GetSizeC p <= free_bytes d ->
      (dup = true ->
       GemmStridedBatchedParams.GetSizeA p
       <= free_bytes d - GemmStridedBatchedParams.GetSizeC p /\
       GemmStridedBatchedParams.GetSizeB p
       <= free_bytes d - GemmStridedBatchedParams.GetSizeC p
          - GemmStridedBatchedParams.GetSizeA p) ->
      exists (copy : GemmStridedBatchedParams.t T) (d' : Device T),
        GemmStridedBatchedParams.DeepCopy raw p dup d = inr (copy, d')).
Proof.
  split; [| split; [| split; [| split; [| split]]]].
  - intros raw p copy dup d d' E.
    apply dense_DeepCopy_inv in E as (new_c & new_ab & -> & Dup & Eff).
    split; [| split; [| exact Eff]].
    + destruct new_ab as [[pa pb]|]; simpl; tauto.
    + intros ->. destruct new_ab as [[pa pb]|]; simpl; [| tauto].
      destruct Dup as [_ Dup]. discriminate Dup. discriminate.
  - intros raw p copy dup d d' E.
    apply batched_DeepCopy_inv in E as (new_c & new_ab & -> & Dup & Eff).
    split; [| split; [| exact Eff]].
    + destruct new_ab as [[pa pb]|]; simpl; tauto.
    + intros ->. destruct new_ab as [[pa pb]|]; simpl; [| tauto].
      destruct Dup as [_ Dup]. discriminate Dup. discriminate.
  - intros raw p dup d d' e E. rewrite dense_DeepCopy_calls in E.
    destruct (deep_copy_calls _ _ _ _ _ _) as [[e1 d1] | [[new_c new_ab] d1]] eqn:F;
      [| discriminate].
    injection E as -> ->. exact (deep_copy_calls_failure _ _ _ _ _ _ _ _ F).
  - intros raw p dup d d' e E. rewrite batched_DeepCopy_calls in E.
    destruct (deep_copy_calls _ _ _ _ _ _) as [[e1 d1] | [[new_c new_ab] d1]] eqn:F;
      [| discriminate].
    injection E as -> ->. exact (deep_copy_calls_failure _ _ _ _ _ _ _ _ F).
  - intros raw p dup d device src Dv Ls Bs Fc Fab.
    destruct (proj2 (deep_copy_calls_succeeds_iff (GemmParams.c p)
                       (GemmParams.GetSizeC p) (GemmParams.GetSizeA p)
                       (GemmParams.GetSizeB p) dup d src Ls))
      as ([new_c new_ab] & d' & Ok).
    { rewrite Dv. split; [discriminate | auto]. }
    exists (dense_copy_of p new_c new_ab), d'.
    now rewrite dense_DeepCopy_calls, Ok.
  - intros raw p dup d device src Dv Ls Bs Fc Fab.
    destruct (proj2 (deep_copy_calls_succeeds_iff (GemmStridedBatchedParams.c p)
                       (GemmStridedBatchedParams.GetSizeC p)
                       (GemmStridedBatchedParams.GetSizeA p)
                       (GemmStridedBatchedParams.GetSizeB p) dup d src Ls))
      as ([new_c new_ab] & d' & Ok).
    { rewrite Dv. split; [discriminate | auto]. }
    exists (batched_copy_of p new_c new_ab), d'.
    now rewrite batched_DeepCopy_calls, Ok.
Qed.

(** Deep copies on the small device, in both variants, with and without
    duplicated inputs, from storage that shares no member with the
    receiver; and a batched copy that runs out of memory at its second
    allocation. *)
Lemma DeepCopy_frame_witness :
  (exists (copy : GemmParams.t float32) (d' : Device float32),
      GemmParams.DeepCopy junk_dense small_dense false small_device = inr (copy, d') /\
      GemmParams.transa copy = "N"%char /\ GemmParams.n copy = 2 /\
      GemmParams.a copy = 1%N /\
      heap_preserved small_device d') /\
  (exists (copy : GemmStridedBatchedParams.t float32) (d' : Device float32),
      GemmStridedBatchedParams.DeepCopy junk_batched small_batched true small_device
      = inr (copy, d') /\
      GemmStridedBatchedParams.transa copy = "N"%char /\
      GemmStridedBatchedParams.batch copy = 2 /\
      heap_preserved small_device d') /\
  (exists (e : Error) (d' : Device float32),
      GemmStridedBatchedParams.DeepCopy junk_batched small_batched true tight_device
      = inl (e, d') /\
      heap_preserved tight_device d' /\
      released (calls d') = released (calls tight_device)).
Proof.
  split; [| split].
  - destruct (proj1 (proj2 (proj2 (proj2 (proj2 DeepCopy_frame))))
                junk_dense small_dense false small_device 0
                (block_of (replicate 8 f32_one)))
      as (copy & d' & E);
      [reflexivity | reflexivity | vm_compute; discriminate
      | vm_compute; discriminate | discriminate |].
    exists copy, d'. split; [exact E |].
    destruct (proj1 DeepCopy_frame junk_dense small_dense copy false small_device d' E)
      as ((Ea & _ & _ & En & _) & Ab & P & _).
    destruct (Ab eq_refl) as (Aa & _).
    split; [exact Ea | split; [exact En | split; [exact Aa | exact P]]].
  - destruct (proj2 (proj2 (proj2 (proj2 (proj2 DeepCopy_frame))))
                junk_batched small_batched true small_device 0
                (block_of (replicate 8 f32_one)))
      as (copy & d' & E);
      [reflexivity | reflexivity | vm_compute; discriminate
      | vm_compute; discriminate
      | intros _; split; vm_compute; discriminate |].
    exists copy, d'. split; [exact E |].
    destruct (proj1 (proj2 DeepCopy_frame) junk_batched small_batched copy true
                small_device d' E)
      as ((Ea & _ & _ & _ & _ & _ & _ & _ & _ & _ & _ & _ & _ & Eb) & _ & P & _).
    split; [exact Ea | split; [exact Eb | exact P]].
  - destruct (GemmStridedBatchedParams.DeepCopy junk_batched small_batched true
                tight_device) as [[e d'] | [copy d']] eqn:E;
      [| vm_compute in E; discriminate E].
    exists e, d'. split; [reflexivity |].
    exact (proj1 (proj2 (proj2 (proj2 DeepCopy_frame)))
             junk_batched small_batched true tight_device d' e E).
Defined.

(** The ownership flag of a deep copy: set when inputs are duplicated,
    otherwise whatever the receiver's flag was. *)
Lemma dense_DeepCopy_flag {T} `{ScalarType T} (raw p copy : GemmParams.t T)
    (dup : bool) (d d' : Device T) :
  GemmParams.DeepCopy raw p dup d = inr (copy, d') ->
  GemmParams.duplicate_inputs_ copy = dup || GemmParams.duplicate_inputs_ p.
Proof.
  intros E. apply dense_DeepCopy_inv in E as (new_c & new_ab & -> & Dup & _).
  destruct new_ab as [[pa pb]|]; simpl.
  - destruct Dup as [_ ->]; [reflexivity | discriminate].
  - destruct dup; [| reflexivity]. destruct Dup as [Dup _]. now elim Dup.
Qed.

Lemma batched_DeepCopy_flag {T} `{ScalarType T}
    (raw p copy : GemmStridedBatchedParams.t T)
    (dup : bool) (d d' : Device T) :
  GemmStridedBatchedParams.DeepCopy raw p dup d = inr (copy, d') ->
  GemmStridedBatchedParams.duplicate_inputs_ copy
  = dup || GemmStridedBatchedParams.duplicate_inputs_ p.
Proof.
  intros E. apply batched_DeepCopy_inv in E as (new_c & new_ab & -> & Dup & _).
  destruct new_ab as [[pa pb]|]; simpl.
  - destruct Dup as [_ ->]; [reflexivity | discriminate].
  - destruct dup; [| reflexivity]. destruct Dup as [Dup _]. now elim Dup.
Qed.

(** C1, evaluated on the small device: a borrowing descriptor is copied
    with duplicated inputs, and that copy is copied again without
    duplication.  The second copy carries the first copy's input pointers
    and is marked as owning them, so the teardown of both copies releases
    each input block twice.  The same happens in the batched variant. *)
Theorem DeepCopy_false_inherits_ownership :
  (exists (q r : GemmParams.t float32) (d1 d2 d3 d4 : Device float32),
      GemmParams.duplicate_inputs_ small_dense = false /\
      GemmParams.DeepCopy junk_dense small_dense true small_device = inr (q, d1) /\
      GemmParams.DeepCopy junk_dense q false d1 = inr (r, d2) /\
      GemmParams.duplicate_inputs_ r = true /\
      GemmParams.a r = GemmParams.a q /\ GemmParams.b r = GemmParams.b q /\
      GemmParams.Delete q d2 = inr (tt, d3) /\
      GemmParams.Delete r d3 = inr (tt, d4) /\
      calls d4 = calls d2 ++
        [RawDelete (GemmParams.c q); RawDelete (GemmParams.a q);
         RawDelete (GemmParams.b q);
         RawDelete (GemmParams.c r); RawDelete (GemmParams.a q);
         RawDelete (GemmParams.b q)]) /\
  (exists (q r : GemmStridedBatchedParams.t float32) (d1 d2 : Device float32),
      GemmStridedBatchedParams.duplicate_inputs_ small_batched = false /\
      GemmStridedBatchedParams.DeepCopy junk_batched small_batched true small_device = inr (q, d1) /\
      GemmStridedBatchedParams.DeepCopy junk_batched q false d1 = inr (r, d2) /\
      GemmStridedBatchedParams.duplicate_inputs_ r = true /\
      GemmStridedBatchedParams.a r = GemmStridedBatchedParams.a q /\
      GemmStridedBatchedParams.b r = GemmStridedBatchedParams.b q).
Proof.
  split.
  - do 6 eexists.
    split; [reflexivity |].
    split; [vm_compute; reflexivity |].
    split; [vm_compute; reflexivity |].
    split; [reflexivity |]. split; [reflexivity |]. split; [reflexivity |].
    split; [vm_compute; reflexivity |].
    split; [vm_compute; reflexivity |].
    vm_compute; reflexivity.
  - do 4 eexists.
    split; [reflexivity |].
    split; [vm_compute; reflexivity |].
    split; [vm_compute; reflexivity |].
    split; [reflexivity |]. split; reflexivity.
Qed.

(** ** Teardown *)

(** C10: teardown has no precondition and cannot fail.  On every
    descriptor and every device state it calls raw_delete on the output
    pointer c, then on the input pointers a and b exactly when the private
    flag is set, and nothing else; the blocks at those pointers are
    released.  For a default-constructed descriptor, whose flag is false
    and whose pointers are the caller's, the caller's output block is
    released all the same and no error is raised. *)
Theorem Delete_unchecked {T} `{ScalarType T} :
  (forall (p : GemmParams.t T) (d : Device T),
      exists d' : Device T,
        GemmParams.Delete p d = inr (tt, d') /\
        calls d' = calls d ++ RawDelete (GemmParams.c p) ::
          (if GemmParams.duplicate_inputs_ p
           then [RawDelete (GemmParams.a p); RawDelete (GemmParams.b p)] else []) /\
        heap d' =
          (if GemmParams.duplicate_inputs_ p
           then delete (GemmParams.b p)
                  (delete (GemmParams.a p) (delete (GemmParams.c p) (heap d)))
           else delete (GemmParams.c p) (heap d))) /\
  (forall (fields : GemmParams.t T) (d : Device T),
      exists d' : Device T,
        GemmParams.Delete (GemmParams.ctor fields) d = inr (tt, d') /\
        calls d' = calls d ++ [RawDelete (GemmParams.c fields)] /\
        heap d' !! GemmParams.c fields = None) /\
  (forall (p : GemmStridedBatchedParams.t T) (d : Device T),
      exists d' : Device T,
        GemmStridedBatchedParams.Delete p d = inr (tt, d') /\
        calls d' = calls d ++ RawDelete (GemmStridedBatchedParams.c p) ::
          (if GemmStridedBatchedParams.duplicate_inputs_ p
           then [RawDelete (GemmStridedBatchedParams.a p);
                 RawDelete (GemmStridedBatchedParams.b p)] else []) /\
        heap d' =
          (if GemmStridedBatchedParams.duplicate_inputs_ p
           then delete (GemmStridedBatchedParams.b p)
                  (delete (GemmStridedBatchedParams.a p)
                     (delete (GemmStridedBatchedParams.c p) (heap d)))
           else delete (GemmStridedBatchedParams.c p) (heap d))) /\
  (forall (fields : GemmStridedBatchedParams.t T) (d : Device T),
      exists d' : Device T,
        GemmStridedBatchedParams.Delete (GemmStridedBatchedParams.ctor fields) d
        = inr (tt, d') /\
        calls d' = calls d ++ [RawDelete (GemmStridedBatchedParams.c fields)] /\
        heap d' !! GemmStridedBatchedParams.c fields = None).
Proof.
  split; [| split; [| split]].
  - intros p d. unfold GemmParams.Delete, bind, raw_delete, ret.
    destruct (GemmParams.duplicate_inputs_ p); eexists; simpl;
      (split; [reflexivity |]); split; try reflexivity.
    now rewrite <- !app_assoc.
  - intros f d. unfold GemmParams.Delete, bind, raw_delete, ret. simpl.
    eexists; split; [reflexivity |]. simpl. split; [reflexivity |].
    apply lookup_delete_eq.
  - intros p d. unfold GemmStridedBatchedParams.Delete, bind, raw_delete, ret.
    destruct (GemmStridedBatchedParams.duplicate_inputs_ p); eexists; simpl;
      (split; [reflexivity |]); split; try reflexivity.
    now rewrite <- !app_assoc.
  - intros f d. unfold GemmStridedBatchedParams.Delete, bind, raw_delete, ret. simpl.
    eexists; split; [reflexivity |]. simpl. split; [reflexivity |].
    apply lookup_delete_eq.
Qed.

(** ** The tolerance sweep *)

Section Sweep.
Variable close : float -> float -> bool.

Lemma nested_fold_pairs (la lr : list float) (st : float * float) :
  fold_left
    (fun st atol =>
       fold_left (fun st rtol => if close rtol atol then (atol, rtol) else st) lr st)
    la st
  = fold_left (sweep_step close) (list_prod la lr) st.
Proof.
  revert st; induction la as [|a la IH]; intros st; simpl; [reflexivity |].
  rewrite fold_left_app, IH. f_equal.
  clear IH. revert st; induction lr as [|r lr IHr]; intros st; simpl;
    [reflexivity | apply IHr].
Qed.

Lemma tolerance_sweep_pairs :
  tolerance_sweep close = fold_left (sweep_step close) tolerance_pairs (1%float, 1%float).
Proof. apply nested_fold_pairs. Qed.

(** The state after the loop: untouched when nothing passed, otherwise
    the last pair that passed. *)
Lemma fold_step_last (pairs : list (float * float)) (st : float * float) :
  (Forall (fun ar => close (snd ar) (fst ar) = false) pairs /\
   fold_left (sweep_step close) pairs st = st) \/
  (exists before ar after,
      pairs = before ++ ar :: after /\
      close (snd ar) (fst ar) = true /\
      Forall (fun ar => close (snd ar) (fst ar) = false) after /\
      fold_left (sweep_step close) pairs st = ar).
Proof.
  induction pairs as [|x pairs IH] using rev_ind.
  - left. split; [exact (List.Forall_nil _) | reflexivity].
  - rewrite fold_left_app; simpl.
    change ((sweep_step close) (fold_left (sweep_step close) pairs st) x)
      with (if close (snd x) (fst x) then x else fold_left (sweep_step close) pairs st).
    destruct (close (snd x) (fst x)) eqn:Cx.
    + right. exists pairs, x, [].
      split; [reflexivity | split; [exact Cx | split; [exact (List.Forall_nil _) | reflexivity]]].
    + destruct IH as [[Fa E] | (before & ar & after & -> & Car & Fa & E)].
      * left. split; [| exact E].
        apply Forall_app. split; [exact Fa | now constructor].
      * right. exists before, ar, (after ++ [x]).
        rewrite <- app_assoc. simpl.
        split; [reflexivity | split; [exact Car | split; [| exact E]]].
        apply Forall_app. split; [exact Fa | now constructor].
Qed.
End Sweep.

Lemma ladder_not_sentinel (t : float) :
  In t atols \/ In t rtols -> (t =? 1)%float = false.
Proof.
  unfold atols, rtols; simpl.
  intros [H | H]; repeat (destruct H as [<- | H]; [reflexivity |]); destruct H.
Qed.

Lemma in_tolerance_pairs (atol rtol : float) :
  In (atol, rtol) tolerance_pairs <-> In atol atols /\ In rtol rtols.
Proof. apply in_prod_iff. Qed.

Lemma verdict_sweep_outcome (close : float -> float -> bool) :
  sweep_outcome close (verdict (tolerance_sweep close)).
Proof.
  rewrite tolerance_sweep_pairs.
  destruct (fold_step_last close tolerance_pairs (1%float, 1%float))
    as [[Fa ->] | (before & [a r] & after & Ep & Car & Fa & ->)].
  - (* nothing passed: the sentinel is unchanged *)
    assert (V : verdict (1%float, 1%float) = (FAIL, None)) by reflexivity.
    rewrite V; simpl.
    split; [| split; [| split]].
    + split; [| reflexivity]. intros _ atol rtol Ia Ir.
      rewrite List.Forall_forall in Fa.
      apply (Fa (atol, rtol)). now apply in_tolerance_pairs.
    + reflexivity.
    + split; [discriminate | intros (x & y & E); discriminate E].
    + intros x y E; discriminate E.
  - (* the last pair that passed is reported *)
    assert (I : In (a, r) tolerance_pairs).
    { rewrite Ep. apply in_or_app. right. now left. }
    apply in_tolerance_pairs in I as [Ia Ir].
    pose proof (ladder_not_sentinel a (or_introl Ia)) as Na.
    pose proof (ladder_not_sentinel r (or_intror Ir)) as Nr.
    assert (V : verdict (a, r) = (OK, Some (a, r))).
    { unfold verdict. now rewrite Na. }
    rewrite V; simpl. simpl in Car.
    split; [| split; [| split]].
    + split; [discriminate |]. intros Hn.
      rewrite (Hn a r Ia Ir) in Car. discriminate Car.
    + discriminate.
    + split; [| reflexivity]. intros _. now exists a, r.
    + intros x y [= <- <-]. split; [| split; assumption].
      now exists before, after.
Qed.

Lemma tolerance_sweep_ext (close close' : float -> float -> bool) :
  (forall atol rtol, In atol atols -> In rtol rtols -> close rtol atol = close' rtol atol) ->
  tolerance_sweep close = tolerance_sweep close'.
Proof.
  intros E. rewrite !tolerance_sweep_pairs.
  assert (G : forall pairs st,
             (forall ar, In ar pairs -> close (snd ar) (fst ar) = close' (snd ar) (fst ar)) ->
             fold_left (sweep_step close) pairs st
             = fold_left (sweep_step close') pairs st).
  { induction pairs as [|x pairs IH]; intros st Hx; simpl; [reflexivity |].
    unfold sweep_step at 2 4. rewrite (Hx x (or_introl eq_refl)). apply IH.
    intros ar I. apply Hx. now right. }
  apply G. intros [a r] I. apply in_tolerance_pairs in I as [Ia Ir]. now apply E.
Qed.

(** ** Numerical check *)

Lemma dense_NumericalCheck_eq {T} `{ScalarType T}
    (at_allclose : list float32 -> list float32 -> float -> float -> bool)
    (d : Device T) (p other : GemmParams.t T) (ref oth : list T) :
  in_int64 (GemmParams.ldc p * GemmParams.n p) = true ->
  from_blob d (GemmParams.c p) (GemmParams.ldc p * GemmParams.n p) = Some ref ->
  from_blob d (GemmParams.c other) (GemmParams.ldc p * GemmParams.n p) = Some oth ->
  GemmParams.NumericalCheck at_allclose d p other =
  Some (verdict (tolerance_sweep
                   (fun rtol atol =>
                      at_allclose (map to_kFloat ref) (map to_kFloat oth) rtol atol))).
Proof.
  intros R Er Eo. unfold GemmParams.NumericalCheck, int64_mul.
  now rewrite R, Er, Eo.
Qed.

Lemma batched_NumericalCheck_eq {T} `{ScalarType T}
    (at_allclose : list float32 -> list float32 -> float -> float -> bool)
    (d : Device T) (p other : GemmStridedBatchedParams.t T) (ref oth : list T) :
  in_int64 (GemmStridedBatchedParams.batch p * GemmStridedBatchedParams.stride_c p) = true ->
  from_blob d (GemmStridedBatchedParams.c p)
    (GemmStridedBatchedParams.batch p * GemmStridedBatchedParams.stride_c p) = Some ref ->
  from_blob d (GemmStridedBatchedParams.c other)
    (GemmStridedBatchedParams.batch p * GemmStridedBatchedParams.stride_c p) = Some oth ->
  GemmStridedBatchedParams.NumericalCheck at_allclose d p other =
  Some (verdict (tolerance_sweep
                   (fun rtol atol =>
                      at_allclose (map to_kFloat ref) (map to_kFloat oth) rtol atol))).
Proof.
  intros R Er Eo. unfold GemmStridedBatchedParams.NumericalCheck, int64_mul.
  now rewrite R, Er, Eo.
Qed.

(** C2: whatever [at::allclose] computes, when both result buffers can be
    read NumericalCheck returns a result; it is FAIL exactly when no pair
    (atol, rtol) of the 5x5 ladder passes all-close on the two buffers;
    otherwise it is OK and the reported pair is the last passing pair in
    iteration order (atol outer, rtol inner, each as declared); no ladder
    entry equals the sentinel 1, and a reported pair is never the
    sentinel.  The same holds for the batched variant. *)
Theorem NumericalCheck_sweep_verdict {T} `{ScalarType T}
    (at_allclose : list float32 -> list float32 -> float -> float -> bool) :
  (forall (d : Device T) (p other : GemmParams.t T) (ref oth : list T),
      in_int64 (GemmParams.ldc p * GemmParams.n p) = true ->
      from_blob d (GemmParams.c p) (GemmParams.ldc p * GemmParams.n p) = Some ref ->
      from_blob d (GemmParams.c other) (GemmParams.ldc p * GemmParams.n p) = Some oth ->
      exists res,
        GemmParams.NumericalCheck at_allclose d p other = Some res /\
        sweep_outcome
          (fun rtol atol =>
             at_allclose (map to_kFloat ref) (map to_kFloat oth) rtol atol) res) /\
  (forall (d : Device T) (p other : GemmStridedBatchedParams.t T) (ref oth : list T),
      in_int64 (GemmStridedBatchedParams.batch p * GemmStridedBatchedParams.stride_c p)
        = true ->
      from_blob d (GemmStridedBatchedParams.c p)
        (GemmStridedBatchedParams.batch p * GemmStridedBatchedParams.stride_c p)
        = Some ref ->
      from_blob d (GemmStridedBatchedParams.c other)
        (GemmStridedBatchedParams.batch p * GemmStridedBatchedParams.stride_c p)
        = Some oth ->
      exists res,
        GemmStridedBatchedParams.NumericalCheck at_allclose d p other = Some res /\
        sweep_outcome
          (fun rtol atol =>
             at_allclose (map to_kFloat ref) (map to_kFloat oth) rtol atol) res) /\
  (forall t : float, In t atols \/ In t rtols -> (t =? 1)%float = false).
Proof.
  split; [| split].
  - intros d p other ref oth R Er Eo. eexists. split.
    + exact (dense_NumericalCheck_eq at_allclose d p other ref oth R Er Eo).
    + apply verdict_sweep_outcome.
  - intros d p other ref oth R Er Eo. eexists. split.
    + exact (batched_NumericalCheck_eq at_allclose d p other ref oth R Er Eo).
    + apply verdict_sweep_outcome.
  - apply ladder_not_sentinel.
Qed.

(** The small dense descriptor checked against itself: the hypotheses of
    C2 hold there. *)
Lemma NumericalCheck_sweep_verdict_witness :
  exists res,
    GemmParams.NumericalCheck (allclose FirstOperand) small_device small_dense small_dense = Some res /\
    sweep_outcome
      (fun rtol atol =>
         allclose FirstOperand (map to_kFloat (replicate 4 f32_one))
                  (map to_kFloat (replicate 4 f32_one)) rtol atol) res.
Proof.
  apply (proj1 (NumericalCheck_sweep_verdict (allclose FirstOperand)) small_device small_dense small_dense);
    vm_compute; reflexivity.
Defined.

(** ** Reading result buffers *)


(** A read depends only on the leading cells of the block it reads. *)
Lemma from_blob_take {T} `{ScalarType T} (d d' : Device T) (ptr ptr' : N) (numel : Z)
    (blk blk' : Block T) :
  heap d !! ptr = Some blk ->
  heap d' !! ptr' = Some blk' ->
  take (Z.to_nat numel) (block_cells blk') = take (Z.to_nat numel) (block_cells blk) ->
  from_blob d' ptr' numel = from_blob d ptr numel.
Proof.
  intros L L' E. unfold from_blob. now rewrite L, L', E.
Qed.






(** ** A buffer against an exact copy *)

Lemma SFeqb_refl (x : float32) : is_nan32 x = false -> SFeqb x x = true.
Proof.
  unfold SFeqb, SFcompare.
  destruct x as [s | s | | s m e]; simpl; intros N; try discriminate N.
  - reflexivity.
  - now destruct s.
  - rewrite Z.compare_refl.
    change (Pos.compare_cont Eq m m) with (Pos.compare m m).
    rewrite Pos.compare_refl. now destruct s.
Qed.

(** A value that is not NaN is close to itself, whatever the tolerances
    and the wording. *)
Lemma isclose_self (rel : RelativeTo) (rtol atol : float) (x : float32) :
  is_nan32 x = false -> isclose rel rtol atol x x = true.
Proof.
  intros N. unfold isclose. now rewrite (SFeqb_refl x N).
Qed.

Lemma allclose_self (rel : RelativeTo) (rtol atol : float) (l : list float32) :
  Forall (fun x => is_nan32 x = false) l ->
  allclose rel l l rtol atol = true.
Proof.
  intros Fl. unfold allclose. rewrite Nat.eqb_refl. simpl.
  induction Fl as [|x l Fx Fl IH]; simpl; [reflexivity |].
  now rewrite (isclose_self rel rtol atol x Fx), IH.
Qed.

(** ** Deep copy followed by the numerical check *)

Lemma deep_copy_calls_succeeds {T} `{ScalarType T} (src_c : N)
    (c_size a_size b_size device : Z) (d : Device T) (src : Block T) :
  current_device d = Some device ->
  c_size <= free_bytes d ->
  heap d !! src_c = Some src ->
  c_size <= block_bytes src ->
  exists new_c d',
    deep_copy_calls src_c c_size a_size b_size false d = inr ((new_c, None), d').
Proof.
  intros Dv Fb Ls Bs. unfold deep_copy_calls, bind, GetDevice, ret. rewrite Dv.
  destruct (raw_alloc_succeeds c_size d Fb) as (new_c & d1 & A). rewrite A.
  apply raw_alloc_inv in A as (Fr & _ & _ & ->).
  unfold memcpyAsync; simpl.
  rewrite lookup_insert_ne by congruence. rewrite Ls, lookup_insert_eq. simpl.
  assert (B : (c_size <=? block_bytes src) && (c_size <=? c_size) = true).
  { apply andb_true_iff. split; apply Z.leb_le; lia. }
  rewrite B. eauto.
Qed.

(** After a deep copy without duplicated inputs, reading [numel] elements
    that the copy covers gives the same values from the receiver's output
    block and from the copy's. *)
Lemma deep_copy_reads_same {T} `{ScalarType T} (d d' : Device T)
    (src_c new_c new_a new_b : N) (c_size a_size b_size numel : Z) (ref : list T) :
  deep_copy_effect d d' false src_c new_c new_a new_b c_size a_size b_size ->
  (Z.to_nat numel <= cells_of_bytes c_size)%nat ->
  from_blob d src_c numel = Some ref ->
  from_blob d' src_c numel = Some ref /\ from_blob d' new_c numel = Some ref.
Proof.
  intros (P & _ & _ & _ & (blk & Lb & _ & Cells) & _) Le R.
  destruct (heap d !! src_c) as [src|] eqn:Ls.
  - split.
    + rewrite <- R. apply (from_blob_take d d' src_c src_c numel src src);
        auto.
    + rewrite <- R. apply (from_blob_take d d' src_c new_c numel src blk); auto.
      rewrite (Cells src eq_refl), take_take. f_equal. lia.
  - unfold from_blob in R. rewrite Ls in R. destruct (numel <? 0); discriminate.
Qed.

Lemma sweep_all_pass (close : float -> float -> bool) :
  (forall atol rtol, In atol atols -> In rtol rtols -> close rtol atol = true) ->
  verdict (tolerance_sweep close) = (OK, Some (1e-5, 1e-5)%float).
Proof.
  intros A. rewrite (tolerance_sweep_ext close (fun _ _ => true)) by exact A.
  reflexivity.
Qed.

Lemma cells_of_exact_bytes {T} `{ScalarType T} (count : Z) :
  0 <= sizeof * count < size_t_modulus ->
  cells_of_bytes ((sizeof * count) mod size_t_modulus) = Z.to_nat count.
Proof.
  intros R. unfold cells_of_bytes. rewrite Z.mod_small by exact R.
  pose proof sizeof_range as S.
  rewrite Z.mul_comm, Z.div_mul by lia. reflexivity.
Qed.

(** C9, as stated, fails when the output buffer holds a NaN: the copy is
    an exact copy, yet no tolerance pair passes and the check returns
    FAIL, in both wordings of the element test. *)
Lemma DeepCopy_then_NumericalCheck_nan_counterexample :
  exists (copy : GemmParams.t float32) (d' : Device float32),
    GemmParams.DeepCopy junk_dense small_dense false nan_device = inr (copy, d') /\
    from_blob d' (GemmParams.c copy) 4 = from_blob d' (GemmParams.c small_dense) 4 /\
    from_blob d' (GemmParams.c copy) 4
    = Some [S754_nan; f32_one; f32_one; f32_one] /\
    GemmParams.NumericalCheck (allclose FirstOperand) d' small_dense copy
    = Some (FAIL, None) /\
    GemmParams.NumericalCheck (allclose SecondOperand) d' small_dense copy
    = Some (FAIL, None).
Proof.
  do 2 eexists. split; [vm_compute; reflexivity |].
  split; [| split; [| split]]; vm_compute; reflexivity.
Qed.

(** The batched deep copy allocates and copies ldc*n*batch elements, the
    batched check reads batch*stride_c: with a batch stride larger than
    ldc*n the check reads past the end of the copy's block, which has no
    defined value. *)
Lemma batched_check_reads_past_copy :
  exists (copy : GemmStridedBatchedParams.t float32) (d' : Device float32),
    GemmStridedBatchedParams.DeepCopy junk_batched padded_batched false padded_device
    = inr (copy, d') /\
    GemmStridedBatchedParams.GetSizeC padded_batched = 4 * 8 /\
    from_blob d' (GemmStridedBatchedParams.c padded_batched) (2 * 5)
    = Some (replicate 10 f32_one) /\
    from_blob d' (GemmStridedBatchedParams.c copy) (2 * 5) = None /\
    GemmStridedBatchedParams.NumericalCheck (allclose FirstOperand) d' padded_batched copy = None.
Proof.
  do 2 eexists. split; [vm_compute; reflexivity |].
  split; [| split; [| split]]; vm_compute; reflexivity.
Qed.

(** C9, amended: for a dense descriptor whose output block can be read
    as ldc*n elements none of which is a NaN once converted to single
    precision (infinities are allowed), on a device that can serve the
    request (a current device, GetSizeC() free bytes, an output block of at
    least GetSizeC() bytes, GetSizeC() not wrapping), DeepCopy(false)
    returns a copy, and NumericalCheck of the original against it returns
    OK and reports (1e-5, 1e-5), in both wordings of the element test.
    The same holds in the batched variant when the batch*stride_c
    elements compared lie within the ldc*n*batch elements copied. *)
Theorem DeepCopy_then_NumericalCheck_no_nan {T} `{ScalarType T} (rel : RelativeTo) :
  (forall (d : Device T) (raw p : GemmParams.t T) (device : Z) (src : Block T)
          (ref : list T),
      current_device d = Some device ->
      GemmParams.GetSizeC p <= free_bytes d ->
      heap d !! GemmParams.c p = Some src ->
      GemmParams.GetSizeC p <= block_bytes src ->
      in_int64 (GemmParams.ldc p * GemmParams.n p) = true ->
      sizeof * (GemmParams.ldc p * GemmParams.n p) < size_t_modulus ->
      from_blob d (GemmParams.c p) (GemmParams.ldc p * GemmParams.n p) = Some ref ->
      Forall (fun x => is_nan32 (to_kFloat x) = false) ref ->
      exists (copy : GemmParams.t T) (d' : Device T),
        GemmParams.DeepCopy raw p false d = inr (copy, d') /\
        GemmParams.NumericalCheck (allclose rel) d' p copy
        = Some (OK, Some (1e-5, 1e-5)%float)) /\
  (forall (d : Device T) (raw p : GemmStridedBatchedParams.t T) (device : Z)
          (src : Block T) (ref : list T),
      current_device d = Some device ->
      GemmStridedBatchedParams.GetSizeC p <= free_bytes d ->
      heap d !! GemmStridedBatchedParams.c p = Some src ->
      GemmStridedBatchedParams.GetSizeC p <= block_bytes src ->
      in_int64 (GemmStridedBatchedParams.batch p * GemmStridedBatchedParams.stride_c p)
        = true ->
      0 <= sizeof * (GemmStridedBatchedParams.ldc p * GemmStridedBatchedParams.n p
                     * GemmStridedBatchedParams.batch p) < size_t_modulus ->
      GemmStridedBatchedParams.batch p * GemmStridedBatchedParams.stride_c p
        <= GemmStridedBatchedParams.ldc p * GemmStridedBatchedParams.n p
           * GemmStridedBatchedParams.batch p ->
      from_blob d (GemmStridedBatchedParams.c p)
        (GemmStridedBatchedParams.batch p * GemmStridedBatchedParams.stride_c p)
        = Some ref ->
      Forall (fun x => is_nan32 (to_kFloat x) = false) ref ->
      exists (copy : GemmStridedBatchedParams.t T) (d' : Device T),
        GemmStridedBatchedParams.DeepCopy raw p false d = inr (copy, d') /\
        GemmStridedBatchedParams.NumericalCheck (allclose rel) d' p copy
        = Some (OK, Some (1e-5, 1e-5)%float)).
Proof.
  assert (Pass : forall ref : list T,
             Forall (fun x => is_nan32 (to_kFloat x) = false) ref ->
             verdict (tolerance_sweep
                        (fun rtol atol =>
                           allclose rel (map to_kFloat ref) (map to_kFloat ref)
                                    rtol atol))
             = (OK, Some (1e-5, 1e-5)%float)).
  { intros ref Fin. apply sweep_all_pass. intros atol rtol Ia Ir.
    apply allclose_self. now apply List.Forall_map. }
  split.
  - intros d raw p device src ref Dv Fb Ls Bs R64 Rsz Rd Fin.
    assert (Nn : 0 <= GemmParams.ldc p * GemmParams.n p).
    { unfold from_blob in Rd.
      destruct (GemmParams.ldc p * GemmParams.n p <? 0) eqn:E; [discriminate |].
      now apply Z.ltb_ge in E. }
    destruct (deep_copy_calls_succeeds (GemmParams.c p) (GemmParams.GetSizeC p)
                (GemmParams.GetSizeA p) (GemmParams.GetSizeB p) device d src
                Dv Fb Ls Bs) as (new_c & d' & Ok).
    assert (E : GemmParams.DeepCopy raw p false d = inr (dense_copy_of p new_c None, d')).
    { now rewrite dense_DeepCopy_calls, Ok. }
    exists (dense_copy_of p new_c None), d'. split; [exact E |].
    apply dense_DeepCopy_inv in E as (new_c' & new_ab & _ & _ & Eff).
    destruct (deep_copy_reads_same d d' _ _ _ _ _ _ _
                (GemmParams.ldc p * GemmParams.n p) ref Eff) as [Rp Rc]; auto.
    { rewrite dense_GetSizeC_mod, <- Z.mul_assoc, cells_of_exact_bytes; [lia |].
      pose proof sizeof_range. nia. }
    rewrite (dense_NumericalCheck_eq (allclose rel) d' p _ ref ref R64 Rp Rc).
    f_equal. now apply Pass.
  - intros d raw p device src ref Dv Fb Ls Bs R64 Rsz Cover Rd Fin.
    assert (Nn : 0 <= GemmStridedBatchedParams.batch p
                      * GemmStridedBatchedParams.stride_c p).
    { unfold from_blob in Rd.
      destruct (GemmStridedBatchedParams.batch p
                * GemmStridedBatchedParams.stride_c p <? 0) eqn:E; [discriminate |].
      now apply Z.ltb_ge in E. }
    destruct (deep_copy_calls_succeeds (GemmStridedBatchedParams.c p)
                (GemmStridedBatchedParams.GetSizeC p)
                (GemmStridedBatchedParams.GetSizeA p)
                (GemmStridedBatchedParams.GetSizeB p) device d src
                Dv Fb Ls Bs) as (new_c & d' & Ok).
    assert (E : GemmStridedBatchedParams.DeepCopy raw p false d
                = inr (batched_copy_of p new_c None, d')).
    { now rewrite batched_DeepCopy_calls, Ok. }
    exists (batched_copy_of p new_c None), d'. split; [exact E |].
    apply batched_DeepCopy_inv in E as (new_c' & new_ab & _ & _ & Eff).
    destruct (deep_copy_reads_same d d' _ _ _ _ _ _ _
                (GemmStridedBatchedParams.batch p * GemmStridedBatchedParams.stride_c p)
                ref Eff) as [Rp Rc]; auto.
    { unfold GemmStridedBatchedParams.GetSizeC. rewrite size_mul4.
      replace (sizeof * GemmStridedBatchedParams.ldc p * GemmStridedBatchedParams.n p
               * GemmStridedBatchedParams.batch p)
        with (sizeof * (GemmStridedBatchedParams.ldc p * GemmStridedBatchedParams.n p
                        * GemmStridedBatchedParams.batch p)) by ring.
      rewrite cells_of_exact_bytes by exact Rsz. lia. }
    rewrite (batched_NumericalCheck_eq (allclose rel) d' p _ ref ref R64 Rp Rc).
    f_equal. now apply Pass.
Qed.

(** An output buffer that holds an infinity, dense, and the small batched
    descriptor on the small device: the hypotheses of the amended C9 hold
    there. *)
Lemma DeepCopy_then_NumericalCheck_no_nan_witness :
  (exists (copy : GemmParams.t float32) (d' : Device float32),
      GemmParams.DeepCopy junk_dense small_dense false inf_device = inr (copy, d') /\
      GemmParams.NumericalCheck (allclose SecondOperand) d' small_dense copy
      = Some (OK, Some (1e-5, 1e-5)%float)) /\
  (exists (copy : GemmStridedBatchedParams.t float32) (d' : Device float32),
      GemmStridedBatchedParams.DeepCopy junk_batched small_batched false small_device
      = inr (copy, d') /\
      GemmStridedBatchedParams.NumericalCheck (allclose FirstOperand) d'
        small_batched copy
      = Some (OK, Some (1e-5, 1e-5)%float)).
Proof.
  split.
  - apply (proj1 (DeepCopy_then_NumericalCheck_no_nan SecondOperand) inf_device
             junk_dense small_dense 0
             (block_of (f32_inf :: replicate 7 f32_one))
             (f32_inf :: replicate 3 f32_one));
      try (vm_compute; reflexivity); try (vm_compute; discriminate).
    repeat constructor.
  - apply (proj2 (DeepCopy_then_NumericalCheck_no_nan FirstOperand) small_device
             junk_batched small_batched 0
             (block_of (replicate 8 f32_one)) (replicate 8 f32_one));
      try (vm_compute; reflexivity); try (vm_compute; discriminate).
    + vm_compute. split; [discriminate | reflexivity].
    + repeat constructor.
Defined.

(** * Further properties *)

(** ** Transpose tags and signatures *)

Lemma underscore_free_append_underscore (s r : string) :
  underscore_free (s ++ String "_" r) = false.
Proof.
  induction s as [|ch s IH]; rewrite ?append_nil_l, ?append_cons; simpl.
  - reflexivity.
  - rewrite IH. apply andb_false_r.
Qed.

(** X1: [BlasOpToString] returns "N" for the tag N and "T" for the tag T,
    and returns for no other value: on every other value of the type it
    fails the check with the message "unrecognized BlasOp".  The strings
    returned tell the tags apart, and a dense descriptor whose transa
    (transb) is the character of the string returned for a tag sizes A
    (B) without transposition for the tag N and with transposition for
    the tag T. *)
Theorem BlasOpToString_drives_extent {T} `{ScalarType T} :
  BlasOpToString BlasOp_N = inr "N"%string /\
  BlasOpToString BlasOp_T = inr "T"%string /\
  (forall op : BlasOp,
      op <> BlasOp_N -> op <> BlasOp_T ->
      BlasOpToString op = inl (TorchCheck "unrecognized BlasOp")) /\
  (forall (op : BlasOp) (s : string),
      BlasOpToString op = inr s -> op = BlasOp_N \/ op = BlasOp_T) /\
  (forall (op op' : BlasOp) (s : string),
      BlasOpToString op = inr s -> BlasOpToString op' = inr s -> op' = op) /\
  (forall (op : BlasOp) (p : GemmParams.t T),
      BlasOpToString op = inr (String (GemmParams.transa p) EmptyString) ->
      GemmParams.GetSizeA p =
      (sizeof * GemmParams.lda p *
       (if op =? BlasOp_N then GemmParams.k p else GemmParams.m p))
      mod size_t_modulus) /\
  (forall (op : BlasOp) (p : GemmParams.t T),
      BlasOpToString op = inr (String (GemmParams.transb p) EmptyString) ->
      GemmParams.GetSizeB p =
      (sizeof * GemmParams.ldb p *
       (if op =? BlasOp_N then GemmParams.n p else GemmParams.k p))
      mod size_t_modulus).
Proof.
  assert (Cases : forall op : BlasOp,
             (op = BlasOp_N /\ BlasOpToString op = inr "N"%string) \/
             (op = BlasOp_T /\ BlasOpToString op = inr "T"%string) \/
             (op <> BlasOp_N /\ op <> BlasOp_T /\
              BlasOpToString op = inl (TorchCheck "unrecognized BlasOp"))).
  { intros op. unfold BlasOpToString.
    destruct (op =? BlasOp_N) eqn:En; [apply Z.eqb_eq in En; auto |].
    destruct (op =? BlasOp_T) eqn:Et; [apply Z.eqb_eq in Et; auto |].
    apply Z.eqb_neq in En, Et. auto. }
  split; [reflexivity | split; [reflexivity |]].
  split; [| split; [| split; [| split]]].
  - intros op Nn Nt.
    destruct (Cases op) as [(E & _) | [(E & _) | (_ & _ & E)]];
      [now elim Nn | now elim Nt | exact E].
  - intros op s E.
    destruct (Cases op) as [(Eo & _) | [(Eo & _) | (_ & _ & F)]]; auto.
    rewrite F in E. discriminate E.
  - intros op op' s E E'.
    destruct (Cases op) as [(-> & F) | [(-> & F) | (_ & _ & F)]];
      destruct (Cases op') as [(-> & F') | [(-> & F') | (_ & _ & F')]];
      congruence.
  - intros op p E. rewrite dense_GetSizeA_mod.
    destruct (Cases op) as [(-> & F) | [(-> & F) | (_ & _ & F)]];
      rewrite F in E; [| | discriminate E];
      injection E as E; rewrite <- E; reflexivity.
  - intros op p E. rewrite dense_GetSizeB_mod.
    destruct (Cases op) as [(-> & F) | [(-> & F) | (_ & _ & F)]];
      rewrite F in E; [| | discriminate E];
      injection E as E; rewrite <- E; reflexivity.
Qed.

(** The scenario carries the character of the tag N, its transposed
    variant the character of the tag T; the value 2 is no tag. *)
Lemma BlasOpToString_drives_extent_witness :
  GemmParams.GetSizeA sample_dense = (sizeof * 64 * 16) mod size_t_modulus /\
  GemmParams.GetSizeA sample_dense_T = (sizeof * 16 * 64) mod size_t_modulus /\
  BlasOpToString 2 = inl (TorchCheck "unrecognized BlasOp").
Proof.
  destruct (BlasOpToString_drives_extent (T := float32))
    as (_ & _ & Other & _ & _ & A & _).
  split; [| split].
  - apply (A BlasOp_N sample_dense). reflexivity.
  - apply (A BlasOp_T sample_dense_T). reflexivity.
  - apply Other; discriminate.
Defined.

(** X2: a batched signature is never a dense signature, whatever the two
    descriptors are: the keys of the two operation kinds cannot collide. *)
Theorem signatures_of_kinds_disjoint {T} `{ScalarType T}
    (p : GemmStridedBatchedParams.t T) (q : GemmParams.t T) :
  (GemmStridedBatchedParams.Signature p =? GemmParams.Signature q)%string = false.
Proof.
  apply String.eqb_neq. rewrite batched_signature_eq, dense_signature_eq.
  intros E. injection E as _ _ E.
  apply split_at_underscore in E as [_ E]; auto using stream_int64_underscore_free.
  apply split_at_underscore in E as [_ E]; auto using stream_int64_underscore_free.
  pose proof (stream_int64_underscore_free (GemmParams.k q)) as F.
  rewrite <- E in F.
  change ("_B_" ++ stream_int64 (GemmStridedBatchedParams.batch p))%string
    with (String "_" ("B_" ++ stream_int64 (GemmStridedBatchedParams.batch p))) in F.
  rewrite underscore_free_append_underscore in F. discriminate F.
Qed.

(** X3: the byte extents depend on transa and transb only through the
    no-transpose test, while the signature keeps the characters: two
    dense descriptors that differ only in the transpose characters, and
    not in what the test says of them, have the same extents, and the same
    signature only when the characters are the same. *)
Theorem extents_blind_to_marker_case {T} `{ScalarType T}
    (ta tb ta' tb' : ascii) (m n k : Z) (alpha beta : opmath_type)
    (a b c : N) (lda ldb ldc : Z) (flag : bool) :
  is_no_trans ta = is_no_trans ta' ->
  is_no_trans tb = is_no_trans tb' ->
  let p := GemmParams.mk ta tb m n k alpha a lda b ldb beta c ldc flag in
  let q := GemmParams.mk ta' tb' m n k alpha a lda b ldb beta c ldc flag in
  GemmParams.GetSizeA p = GemmParams.GetSizeA q /\
  GemmParams.GetSizeB p = GemmParams.GetSizeB q /\
  GemmParams.GetSizeC p = GemmParams.GetSizeC q /\
  (forall dup, GemmParams.GetSize p dup = GemmParams.GetSize q dup) /\
  (GemmParams.Signature p = GemmParams.Signature q <-> ta = ta' /\ tb = tb').
Proof.
  intros Ea Eb p q.
  assert (A : GemmParams.GetSizeA p = GemmParams.GetSizeA q).
  { unfold GemmParams.GetSizeA; simpl. now rewrite Ea. }
  assert (B : GemmParams.GetSizeB p = GemmParams.GetSizeB q).
  { unfold GemmParams.GetSizeB; simpl. now rewrite Eb. }
  split; [exact A | split; [exact B | split; [reflexivity | split]]].
  - intros dup. unfold GemmParams.GetSize. rewrite A, B. reflexivity.
  - split.
    + intros E. apply dense_signature_inj in E as (E1 & E2 & _). now split.
    + intros [-> ->]. reflexivity.
Qed.

(** 'n' against 'N': the same extents, two signatures. *)
Lemma extents_blind_to_marker_case_witness :
  GemmParams.GetSizeA sample_dense_lower = GemmParams.GetSizeA sample_dense /\
  GemmParams.GetSizeB sample_dense_lower = GemmParams.GetSizeB sample_dense /\
  GemmParams.GetSizeC sample_dense_lower = GemmParams.GetSizeC sample_dense /\
  (forall dup, GemmParams.GetSize sample_dense_lower dup
               = GemmParams.GetSize sample_dense dup) /\
  (GemmParams.Signature sample_dense_lower = GemmParams.Signature sample_dense
   <-> "n"%char = "N"%char /\ "N"%char = "N"%char).
Proof.
  apply (extents_blind_to_marker_case (T := float32) "n" "N" "N" "N"); reflexivity.
Defined.

(** ** Deep copy: the state it leaves *)

(** The device after the calls of a deep copy, in full. *)
Lemma deep_copy_calls_state {T} `{ScalarType T} (src_c : N)
    (c_size a_size b_size : Z) (dup : bool) (d d' : Device T)
    (new_c : N) (new_ab : option (N * N)) :
  deep_copy_calls src_c c_size a_size b_size dup d = inr ((new_c, new_ab), d') ->
  exists (device : Z) (blk : Block T),
    current_device d = Some device /\
    current_device d' = Some device /\
    heap d !! new_c = None /\
    block_bytes blk = c_size /\
    match new_ab with
    | None =>
        dup = false /\
        heap d' = <[ new_c := blk ]> (heap d) /\
        free_bytes d' = free_bytes d - c_size /\
        c_size <= free_bytes d /\
        calls d' = calls d
          ++ [RawAlloc c_size new_c; MemcpyAsync new_c device src_c device c_size]
    | Some (new_a, new_b) =>
        dup = true /\
        heap d !! new_a = None /\ heap d !! new_b = None /\
        new_a <> new_c /\ new_b <> new_c /\ new_b <> new_a /\
        heap d' =
          <[ new_b := mkBlock b_size (replicate (cells_of_bytes b_size) None) ]>
            (<[ new_a := mkBlock a_size (replicate (cells_of_bytes a_size) None) ]>
               (<[ new_c := blk ]> (heap d))) /\
        free_bytes d' = free_bytes d - c_size - a_size - b_size /\
        c_size <= free_bytes d /\
        a_size <= free_bytes d - c_size /\
        b_size <= free_bytes d - c_size - a_size /\
        calls d' = calls d
          ++ [RawAlloc c_size new_c; MemcpyAsync new_c device src_c device c_size;
              RawAlloc a_size new_a; RawAlloc b_size new_b]
    end.
Proof.
  unfold deep_copy_calls, bind, GetDevice, ret.
  destruct (current_device d) as [device|] eqn:Dv; [| discriminate].
  destruct (raw_alloc c_size d) as [e | [pc d1]] eqn:A1; [discriminate |].
  destruct (memcpyAsync pc device src_c device c_size d1) as [e | [u d2]] eqn:C1;
    [discriminate |].
  apply raw_alloc_inv in A1 as (Fr & _ & Fc & E1).
  apply memcpyAsync_inv in C1 as (sblk & dblk & _ & Ld & _ & _ & E2).
  rewrite E1 in Ld; simpl in Ld. rewrite lookup_insert_eq in Ld.
  injection Ld as <-. rewrite E1 in E2; simpl in E2.
  rewrite insert_insert_eq, <- app_assoc in E2. simpl in E2.
  destruct dup.
  - destruct (raw_alloc a_size d2) as [e | [pa d3]] eqn:A2; [discriminate |].
    destruct (raw_alloc b_size d3) as [e | [pb d4]] eqn:A3; [discriminate |].
    intros [= <- <- <-].
    apply raw_alloc_inv in A2 as (Fa & _ & Fsa & E3).
    apply raw_alloc_inv in A3 as (Fb & _ & Fsb & E4).
    rewrite E2 in Fa, Fsa, E3; simpl in Fa, Fsa, E3.
    rewrite E3 in Fb, Fsb, E4; simpl in Fb, Fsb, E4.
    apply lookup_insert_None in Fa as [Fa Nac].
    apply lookup_insert_None in Fb as [Fb Nba].
    apply lookup_insert_None in Fb as [Fb Nbc].
    exists device, (mkBlock c_size
              (take (cells_of_bytes c_size) (block_cells sblk)
               ++ drop (cells_of_bytes c_size)
                    (replicate (cells_of_bytes c_size) None))).
    rewrite E4; simpl.
    split; [reflexivity | split; [exact Dv | split; [exact Fr |]]].
    split; [reflexivity |].
    split; [reflexivity |].
    split; [exact Fa | split; [exact Fb |]].
    split; [congruence | split; [congruence | split; [congruence |]]].
    split; [reflexivity |].
    split; [reflexivity |].
    split; [exact Fc | split; [exact Fsa | split; [exact Fsb |]]].
    now rewrite <- !app_assoc.
  - intros [= <- <- <-].
    exists device, (mkBlock c_size
              (take (cells_of_bytes c_size) (block_cells sblk)
               ++ drop (cells_of_bytes c_size)
                    (replicate (cells_of_bytes c_size) None))).
    rewrite E2; simpl.
    split; [reflexivity | split; [exact Dv | split; [exact Fr |]]].
    split; [reflexivity |].
    split; [reflexivity | split; [reflexivity | split; [reflexivity |]]].
    split; [exact Fc | reflexivity].
Qed.

Lemma allocated_bytes_app (l1 l2 : list AllocatorCall) :
  allocated_bytes (l1 ++ l2) = allocated_bytes l1 + allocated_bytes l2.
Proof.
  induction l1 as [|x l1 IH]; simpl; [reflexivity |].
  destruct x; rewrite IH; lia.
Qed.

Lemma batched_sizes_in_range {T} `{ScalarType T} (q : GemmStridedBatchedParams.t T) :
  0 <= GemmStridedBatchedParams.GetSizeA q < size_t_modulus /\
  0 <= GemmStridedBatchedParams.GetSizeB q < size_t_modulus /\
  0 <= GemmStridedBatchedParams.GetSizeC q < size_t_modulus.
Proof.
  unfold GemmStridedBatchedParams.GetSizeA, GemmStridedBatchedParams.GetSizeB,
    GemmStridedBatchedParams.GetSizeC, size_mul.
  repeat split; apply Z.mod_pos_bound, size_t_modulus_pos.
Qed.

Lemma size_add3_exact (c a b : Z) :
  0 <= c -> 0 <= a -> 0 <= b -> c + a + b < size_t_modulus ->
  size_add (size_add c a) b = c + a + b.
Proof.
  intros Hc Ha Hb Hs. rewrite size_add3. apply Z.mod_small. lia.
Qed.

(** X4: a deep copy has the receiver's signature and the receiver's byte
    extents, in both variants: it is filed under the same key and sized
    like the original. *)
Theorem DeepCopy_keeps_key_and_extents {T} `{ScalarType T} :
  (forall (raw p copy : GemmParams.t T) (dup : bool) (d d' : Device T),
      GemmParams.DeepCopy raw p dup d = inr (copy, d') ->
      GemmParams.Signature copy = GemmParams.Signature p /\
      GemmParams.GetSizeA copy = GemmParams.GetSizeA p /\
      GemmParams.GetSizeB copy = GemmParams.GetSizeB p /\
      GemmParams.GetSizeC copy = GemmParams.GetSizeC p /\
      forall x : bool, GemmParams.GetSize copy x = GemmParams.GetSize p x) /\
  (forall (raw p copy : GemmStridedBatchedParams.t T) (dup : bool) (d d' : Device T),
      GemmStridedBatchedParams.DeepCopy raw p dup d = inr (copy, d') ->
      GemmStridedBatchedParams.Signature copy = GemmStridedBatchedParams.Signature p /\
      GemmStridedBatchedParams.GetSizeA copy = GemmStridedBatchedParams.GetSizeA p /\
      GemmStridedBatchedParams.GetSizeB copy = GemmStridedBatchedParams.GetSizeB p /\
      GemmStridedBatchedParams.GetSizeC copy = GemmStridedBatchedParams.GetSizeC p /\
      forall x : bool,
        GemmStridedBatchedParams.GetSize copy x = GemmStridedBatchedParams.GetSize p x).
Proof.
  split.
  - intros raw p copy dup d d'. rewrite dense_DeepCopy_calls.
    destruct (deep_copy_calls _ _ _ _ _ _) as [e | [[new_c new_ab] d1]];
      [discriminate |].
    intros [= <- <-]. destruct new_ab as [[pa pb]|]; repeat split; reflexivity.
  - intros raw p copy dup d d'. rewrite batched_DeepCopy_calls.
    destruct (deep_copy_calls _ _ _ _ _ _) as [e | [[new_c new_ab] d1]];
      [discriminate |].
    intros [= <- <-]. destruct new_ab as [[pa pb]|]; repeat split; reflexivity.
Qed.

(** A deep copy on the small device keeps key and extents. *)
Lemma DeepCopy_keeps_key_and_extents_witness :
  exists (copy : GemmParams.t float32) (d' : Device float32),
    GemmParams.DeepCopy junk_dense small_dense true small_device = inr (copy, d') /\
    GemmParams.Signature copy = GemmParams.Signature small_dense /\
    GemmParams.GetSizeC copy = GemmParams.GetSizeC small_dense.
Proof.
  destruct (GemmParams.DeepCopy junk_dense small_dense true small_device)
    as [e | [copy d']] eqn:E.
  - vm_compute in E. discriminate E.
  - exists copy, d'. split; [reflexivity |].
    destruct (proj1 DeepCopy_keeps_key_and_extents junk_dense small_dense copy true
                small_device d' E) as (S & _ & _ & C & _).
    split; [exact S | exact C].
Defined.

(** X5: a successful deep copy requests from the allocator GetSizeC()
    bytes and, when inputs are duplicated, GetSizeA() + GetSizeB() more;
    it releases nothing, and the free device memory drops by that amount.
    Whenever the sum does not wrap, the amount is GetSize(duplicate_inputs). *)
Theorem DeepCopy_allocates_GetSize {T} `{ScalarType T} :
  (forall (raw p copy : GemmParams.t T) (dup : bool) (d d' : Device T),
      GemmParams.DeepCopy raw p dup d = inr (copy, d') ->
      let amount :=
        GemmParams.GetSizeC p
        + (if dup then GemmParams.GetSizeA p + GemmParams.GetSizeB p else 0) in
      allocated_bytes (calls d') = allocated_bytes (calls d) + amount /\
      released (calls d') = released (calls d) /\
      free_bytes d' = free_bytes d - amount /\
      (amount < size_t_modulus -> amount = GemmParams.GetSize p dup)) /\
  (forall (raw p copy : GemmStridedBatchedParams.t T) (dup : bool) (d d' : Device T),
      GemmStridedBatchedParams.DeepCopy raw p dup d = inr (copy, d') ->
      let amount :=
        GemmStridedBatchedParams.GetSizeC p
        + (if dup
           then GemmStridedBatchedParams.GetSizeA p + GemmStridedBatchedParams.GetSizeB p
           else 0) in
      allocated_bytes (calls d') = allocated_bytes (calls d) + amount /\
      released (calls d') = released (calls d) /\
      free_bytes d' = free_bytes d - amount /\
      (amount < size_t_modulus -> amount = GemmStridedBatchedParams.GetSize p dup)).
Proof.
  assert (G : forall (src_c : N) (c_size a_size b_size : Z) (dup : bool)
                     (d d' : Device T) (r : N * option (N * N)),
             deep_copy_calls src_c c_size a_size b_size dup d = inr (r, d') ->
             allocated_bytes (calls d')
             = allocated_bytes (calls d) + (c_size + (if dup then a_size + b_size else 0)) /\
             released (calls d') = released (calls d) /\
             free_bytes d' = free_bytes d - (c_size + (if dup then a_size + b_size else 0))).
  { intros src_c c_size a_size b_size dup d d' [new_c new_ab] E.
    apply deep_copy_calls_state in E as (device & blk & _ & _ & _ & _ & St).
    destruct new_ab as [[pa pb]|].
    - destruct St as (-> & _ & _ & _ & _ & _ & _ & Fb & _ & _ & _ & Cs).
      rewrite Cs, allocated_bytes_app, released_app; simpl.
      rewrite app_nil_r. repeat split; lia.
    - destruct St as (-> & _ & Fb & _ & Cs).
      rewrite Cs, allocated_bytes_app, released_app; simpl.
      rewrite app_nil_r. repeat split; lia. }
  split.
  - intros raw p copy dup d d'. rewrite dense_DeepCopy_calls.
    destruct (deep_copy_calls _ _ _ _ _ _) as [e | [r d1]] eqn:E; [discriminate |].
    destruct r as [new_c new_ab]. intros [= <- <-] amount.
    destruct (G _ _ _ _ _ _ _ _ E) as (A & R & F).
    split; [exact A | split; [exact R | split; [exact F |]]].
    destruct (dense_sizes_in_range p) as (RA & RB & RC).
    unfold amount, GemmParams.GetSize. destruct dup; intros Hs.
    + rewrite size_add3_exact; lia.
    + lia.
  - intros raw p copy dup d d'. rewrite batched_DeepCopy_calls.
    destruct (deep_copy_calls _ _ _ _ _ _) as [e | [r d1]] eqn:E; [discriminate |].
    destruct r as [new_c new_ab]. intros [= <- <-] amount.
    destruct (G _ _ _ _ _ _ _ _ E) as (A & R & F).
    split; [exact A | split; [exact R | split; [exact F |]]].
    destruct (batched_sizes_in_range p) as (RA & RB & RC).
    unfold amount, GemmStridedBatchedParams.GetSize. destruct dup; intros Hs.
    + rewrite size_add3_exact; lia.
    + lia.
Qed.

(** With duplicated inputs the small dense descriptor needs 48 bytes. *)
Lemma DeepCopy_allocates_GetSize_witness :
  exists (copy : GemmParams.t float32) (d' : Device float32),
    GemmParams.DeepCopy junk_dense small_dense true small_device = inr (copy, d') /\
    allocated_bytes (calls d') = 0 + (16 + (16 + 16)) /\
    free_bytes d' = 4096 - (16 + (16 + 16)) /\
    16 + (16 + 16) = GemmParams.GetSize small_dense true.
Proof.
  destruct (GemmParams.DeepCopy junk_dense small_dense true small_device)
    as [e | [copy d']] eqn:E.
  - vm_compute in E. discriminate E.
  - exists copy, d'. split; [reflexivity |].
    destruct (proj1 DeepCopy_allocates_GetSize junk_dense small_dense copy true
                small_device d' E) as (A & _ & F & G).
    split; [exact A | split; [exact F |]].
    apply G. vm_compute. reflexivity.
Defined.

(** ** Deep copy: when it succeeds *)

(** X6: for a receiver whose output pointer is a live block, a deep copy
    succeeds exactly when there is a current device, the free memory
    holds GetSizeC() bytes, the receiver's output block has at least
    GetSizeC() bytes and, for duplicated inputs, GetSizeA() and then
    GetSizeB() more bytes are free; without a current device it fails
    with a device error, whatever else holds, and leaves the device as it
    was. *)
Theorem DeepCopy_succeeds_iff {T} `{ScalarType T} :
  (forall (raw p : GemmParams.t T) (dup : bool) (d : Device T) (src : Block T),
      heap d !! GemmParams.c p = Some src ->
      ((exists copy d', GemmParams.DeepCopy raw p dup d = inr (copy, d')) <->
       (current_device d <> None /\
        GemmParams.GetSizeC p <= free_bytes d /\
        GemmParams.GetSizeC p <= block_bytes src /\
        (dup = true ->
         GemmParams.GetSizeA p <= free_bytes d - GemmParams.GetSizeC p /\
         GemmParams.GetSizeB p
         <= free_bytes d - GemmParams.GetSizeC p - GemmParams.GetSizeA p)))) /\
  (forall (raw p : GemmStridedBatchedParams.t T) (dup : bool) (d : Device T)
          (src : Block T),
      heap d !! GemmStridedBatchedParams.c p = Some src ->
      ((exists copy d', GemmStridedBatchedParams.DeepCopy raw p dup d = inr (copy, d')) <->
       (current_device d <> None /\
        GemmStridedBatchedParams.GetSizeC p <= free_bytes d /\
        GemmStridedBatchedParams.GetSizeC p <= block_bytes src /\
        (dup = true ->
         GemmStridedBatchedParams.GetSizeA p
         <= free_bytes d - GemmStridedBatchedParams.GetSizeC p /\
         GemmStridedBatchedParams.GetSizeB p
         <= free_bytes d - GemmStridedBatchedParams.GetSizeC p
            - GemmStridedBatchedParams.GetSizeA p)))) /\
  (forall (raw p : GemmParams.t T) (dup : bool) (d : Device T),
      current_device d = None -> GemmParams.DeepCopy raw p dup d = inl (CudaError, d)) /\
  (forall (raw p : GemmStridedBatchedParams.t T) (dup : bool) (d : Device T),
      current_device d = None ->
      GemmStridedBatchedParams.DeepCopy raw p dup d = inl (CudaError, d)).
Proof.
  split; [| split; [| split]].
  - intros raw p dup d src Ls.
    rewrite <- (deep_copy_calls_succeeds_iff (GemmParams.c p) _ _ _ dup d src Ls).
    split.
    + intros (copy & d' & E). rewrite dense_DeepCopy_calls in E.
      destruct (deep_copy_calls _ _ _ _ _ _) as [e | [r d1]]; [discriminate | eauto].
    + intros ([new_c new_ab] & d' & E). rewrite dense_DeepCopy_calls, E. eauto.
  - intros raw p dup d src Ls.
    rewrite <- (deep_copy_calls_succeeds_iff (GemmStridedBatchedParams.c p)
                  _ _ _ dup d src Ls).
    split.
    + intros (copy & d' & E). rewrite batched_DeepCopy_calls in E.
      destruct (deep_copy_calls _ _ _ _ _ _) as [e | [r d1]]; [discriminate | eauto].
    + intros ([new_c new_ab] & d' & E). rewrite batched_DeepCopy_calls, E. eauto.
  - intros raw p dup d Dv. unfold GemmParams.DeepCopy, bind, GetDevice.
    now rewrite Dv.
  - intros raw p dup d Dv. unfold GemmStridedBatchedParams.DeepCopy, bind, GetDevice.
    now rewrite Dv.
Qed.

(** On the small device the criterion holds for duplicated inputs. *)
Lemma DeepCopy_succeeds_iff_witness :
  exists (copy : GemmParams.t float32) (d' : Device float32),
    GemmParams.DeepCopy junk_dense small_dense true small_device = inr (copy, d').
Proof.
  apply (proj1 DeepCopy_succeeds_iff junk_dense small_dense true small_device
           (block_of (replicate 8 f32_one))); [vm_compute; reflexivity |].
  split; [discriminate |].
  split; [vm_compute; discriminate |].
  split; [vm_compute; discriminate |].
  intros _. split; vm_compute; discriminate.
Defined.

(** ** Deep copy and teardown together *)

(** The teardown of the descriptor a deep copy of a borrowing receiver
    returned, on the device the copy left. *)
Lemma teardown_after_deep_copy {T} `{ScalarType T} (src_c : N)
    (c_size a_size b_size : Z) (dup : bool) (d d1 : Device T)
    (new_c : N) (new_ab : option (N * N)) :
  deep_copy_calls src_c c_size a_size b_size dup d = inr ((new_c, new_ab), d1) ->
  exists d2 : Device T,
    (run raw_delete new_c then
     match new_ab with
     | Some (new_a, new_b) => run raw_delete new_a then raw_delete new_b
     | None => ret tt
     end)%dev d1 = inr (tt, d2) /\
    heap d2 = heap d /\
    free_bytes d2 = free_bytes d /\
    current_device d2 = current_device d /\
    released (calls d2)
    = released (calls d) ++ new_c ::
        match new_ab with
        | Some (new_a, new_b) => [new_a; new_b]
        | None => []
        end.
Proof.
  intros E.
  apply deep_copy_calls_state in E as (device & blk & Dv & Dv1 & Fr & Bb & St).
  unfold bind, raw_delete, ret.
  destruct new_ab as [[pa pb]|].
  - destruct St as (_ & Fa & Fb & Nac & Nbc & Nba & Hp & Fby & _ & _ & _ & Cs).
    eexists. split; [reflexivity |]. simpl.
    rewrite Hp.
    rewrite (lookup_insert_ne _ pb new_c) by congruence.
    rewrite (lookup_insert_ne _ pa new_c) by congruence.
    rewrite lookup_insert_eq.
    rewrite (delete_insert_ne _ new_c pb) by congruence.
    rewrite (delete_insert_ne _ new_c pa) by congruence.
    rewrite (delete_insert_id _ new_c) by exact Fr.
    rewrite (lookup_insert_ne _ pb pa) by congruence.
    rewrite lookup_insert_eq.
    rewrite (delete_insert_ne _ pa pb) by congruence.
    rewrite (delete_insert_id _ pa) by exact Fa.
    rewrite lookup_insert_eq.
    rewrite (delete_insert_id _ pb) by exact Fb. simpl.
    split; [reflexivity |].
    split; [lia |].
    split; [congruence |].
    rewrite Cs, !released_app; simpl. now rewrite app_nil_r, <- !app_assoc.
  - destruct St as (_ & Hp & Fby & _ & Cs).
    eexists. split; [reflexivity |]. simpl.
    rewrite Hp, lookup_insert_eq, (delete_insert_id _ new_c) by exact Fr.
    split; [reflexivity |].
    split; [lia |].
    split; [congruence |].
    rewrite Cs, !released_app; simpl. now rewrite app_nil_r.
Qed.

(** X7: for a receiver that borrows its buffers (its flag is false), a
    deep copy followed by the teardown of the copy puts the device memory
    back as it was: the same live blocks with the same contents, the
    same free bytes; the only pointers released are the copy's own. *)
Theorem DeepCopy_then_Delete_restores {T} `{ScalarType T} :
  (forall (raw p copy : GemmParams.t T) (dup : bool) (d d1 : Device T),
      GemmParams.duplicate_inputs_ p = false ->
      GemmParams.DeepCopy raw p dup d = inr (copy, d1) ->
      exists d2 : Device T,
        GemmParams.Delete copy d1 = inr (tt, d2) /\
        heap d2 = heap d /\
        free_bytes d2 = free_bytes d /\
        current_device d2 = current_device d /\
        released (calls d2)
        = released (calls d) ++ GemmParams.c copy ::
            (if dup then [GemmParams.a copy; GemmParams.b copy] else [])) /\
  (forall (raw p copy : GemmStridedBatchedParams.t T) (dup : bool) (d d1 : Device T),
      GemmStridedBatchedParams.duplicate_inputs_ p = false ->
      GemmStridedBatchedParams.DeepCopy raw p dup d = inr (copy, d1) ->
      exists d2 : Device T,
        GemmStridedBatchedParams.Delete copy d1 = inr (tt, d2) /\
        heap d2 = heap d /\
        free_bytes d2 = free_bytes d /\
        current_device d2 = current_device d /\
        released (calls d2)
        = released (calls d) ++ GemmStridedBatchedParams.c copy ::
            (if dup
             then [GemmStridedBatchedParams.a copy; GemmStridedBatchedParams.b copy]
             else [])).
Proof.
  split.
  - intros raw p copy dup d d1 Fl. rewrite dense_DeepCopy_calls.
    destruct (deep_copy_calls _ _ _ _ _ _) as [e | [[new_c new_ab] d']] eqn:E;
      [discriminate |].
    intros [= <- <-].
    destruct (teardown_after_deep_copy _ _ _ _ _ _ _ _ _ E) as (d2 & Td & R).
    pose proof (deep_copy_calls_state _ _ _ _ _ _ _ _ _ E)
      as (device & blk & _ & _ & _ & _ & St).
    exists d2. unfold GemmParams.Delete.
    destruct new_ab as [[pa pb]|]; simpl.
    + destruct St as (Ed & _). rewrite Ed. exact (conj Td R).
    + destruct St as (Ed & _). rewrite Ed, Fl. exact (conj Td R).
  - intros raw p copy dup d d1 Fl. rewrite batched_DeepCopy_calls.
    destruct (deep_copy_calls _ _ _ _ _ _) as [e | [[new_c new_ab] d']] eqn:E;
      [discriminate |].
    intros [= <- <-].
    destruct (teardown_after_deep_copy _ _ _ _ _ _ _ _ _ E) as (d2 & Td & R).
    pose proof (deep_copy_calls_state _ _ _ _ _ _ _ _ _ E)
      as (device & blk & _ & _ & _ & _ & St).
    exists d2. unfold GemmStridedBatchedParams.Delete.
    destruct new_ab as [[pa pb]|]; simpl.
    + destruct St as (Ed & _). rewrite Ed. exact (conj Td R).
    + destruct St as (Ed & _). rewrite Ed, Fl. exact (conj Td R).
Qed.

(** A trial on the small device leaves the device memory as it was. *)
Lemma DeepCopy_then_Delete_restores_witness :
  exists (copy : GemmParams.t float32) (d1 d2 : Device float32),
    GemmParams.DeepCopy junk_dense small_dense true small_device = inr (copy, d1) /\
    GemmParams.Delete copy d1 = inr (tt, d2) /\
    heap d2 = heap small_device /\
    free_bytes d2 = free_bytes small_device.
Proof.
  destruct (GemmParams.DeepCopy junk_dense small_dense true small_device)
    as [e | [copy d1]] eqn:E.
  - vm_compute in E. discriminate E.
  - destruct (proj1 DeepCopy_then_Delete_restores junk_dense small_dense copy true
                small_device d1 eq_refl E) as (d2 & Td & Hp & Fb & _).
    exists copy, d1, d2. auto.
Defined.

(** Two deep copies in a row, in terms of what each leaves. *)
Lemma deep_copy_effects_isolated {T} `{ScalarType T} (d d1 d2 : Device T)
    (dup1 dup2 : bool) (src1 c1 a1 b1 src2 c2 a2 b2 : N)
    (cs1 as1 bs1 cs2 as2 bs2 : Z) :
  deep_copy_effect d d1 dup1 src1 c1 a1 b1 cs1 as1 bs1 ->
  deep_copy_effect d1 d2 dup2 src2 c2 a2 b2 cs2 as2 bs2 ->
  c2 <> c1 /\
  (exists blk, heap d1 !! c1 = Some blk /\ heap d2 !! c1 = Some blk) /\
  (dup2 = true -> a2 <> c1 /\ b2 <> c1) /\
  (dup1 = true ->
   c2 <> a1 /\ c2 <> b1 /\
   heap d2 !! a1 = heap d1 !! a1 /\ heap d2 !! b1 = heap d1 !! b1 /\
   (dup2 = true -> a2 <> a1 /\ a2 <> b1 /\ b2 <> a1 /\ b2 <> b1)).
Proof.
  intros (_ & _ & _ & _ & (blk & L1 & _) & D1) (P2 & _ & F2 & _ & _ & D2).
  split; [congruence |].
  split; [exists blk; split; [exact L1 | now apply P2] |].
  split.
  - intros E. destruct (D2 E) as (Fa & Fb & _). split; congruence.
  - intros E. destruct (D1 E) as (_ & _ & _ & _ & _ & La & Lb).
    split; [congruence | split; [congruence |]].
    split; [rewrite La; now apply P2 |].
    split; [rewrite Lb; now apply P2 |].
    intros E2. destruct (D2 E2) as (Fa & Fb & _).
    repeat split; congruence.
Qed.

(** X8: two deep copies made one after the other never share a block:
    the second copy's output block, and its input blocks when it
    duplicates, are different from every block of the first copy, and the
    first copy's blocks are the same after the second copy as before. *)
Theorem successive_DeepCopies_isolated {T} `{ScalarType T} :
  (forall (raw raw' p p' q1 q2 : GemmParams.t T) (dup1 dup2 : bool)
          (d d1 d2 : Device T),
      GemmParams.DeepCopy raw p dup1 d = inr (q1, d1) ->
      GemmParams.DeepCopy raw' p' dup2 d1 = inr (q2, d2) ->
      GemmParams.c q2 <> GemmParams.c q1 /\
      (exists blk, heap d1 !! GemmParams.c q1 = Some blk /\
                   heap d2 !! GemmParams.c q1 = Some blk) /\
      (dup2 = true ->
       GemmParams.a q2 <> GemmParams.c q1 /\ GemmParams.b q2 <> GemmParams.c q1) /\
      (dup1 = true ->
       GemmParams.c q2 <> GemmParams.a q1 /\ GemmParams.c q2 <> GemmParams.b q1 /\
       heap d2 !! GemmParams.a q1 = heap d1 !! GemmParams.a q1 /\
       heap d2 !! GemmParams.b q1 = heap d1 !! GemmParams.b q1 /\
       (dup2 = true ->
        GemmParams.a q2 <> GemmParams.a q1 /\ GemmParams.a q2 <> GemmParams.b q1 /\
        GemmParams.b q2 <> GemmParams.a q1 /\ GemmParams.b q2 <> GemmParams.b q1))) /\
  (forall (raw raw' p p' q1 q2 : GemmStridedBatchedParams.t T) (dup1 dup2 : bool)
          (d d1 d2 : Device T),
      GemmStridedBatchedParams.DeepCopy raw p dup1 d = inr (q1, d1) ->
      GemmStridedBatchedParams.DeepCopy raw' p' dup2 d1 = inr (q2, d2) ->
      GemmStridedBatchedParams.c q2 <> GemmStridedBatchedParams.c q1 /\
      (exists blk, heap d1 !! GemmStridedBatchedParams.c q1 = Some blk /\
                   heap d2 !! GemmStridedBatchedParams.c q1 = Some blk) /\
      (dup2 = true ->
       GemmStridedBatchedParams.a q2 <> GemmStridedBatchedParams.c q1 /\
       GemmStridedBatchedParams.b q2 <> GemmStridedBatchedParams.c q1) /\
      (dup1 = true ->
       GemmStridedBatchedParams.c q2 <> GemmStridedBatchedParams.a q1 /\
       GemmStridedBatchedParams.c q2 <> GemmStridedBatchedParams.b q1 /\
       heap d2 !! GemmStridedBatchedParams.a q1
       = heap d1 !! GemmStridedBatchedParams.a q1 /\
       heap d2 !! GemmStridedBatchedParams.b q1
       = heap d1 !! GemmStridedBatchedParams.b q1 /\
       (dup2 = true ->
        GemmStridedBatchedParams.a q2 <> GemmStridedBatchedParams.a q1 /\
        GemmStridedBatchedParams.a q2 <> GemmStridedBatchedParams.b q1 /\
        GemmStridedBatchedParams.b q2 <> GemmStridedBatchedParams.a q1 /\
        GemmStridedBatchedParams.b q2 <> GemmStridedBatchedParams.b q1))).
Proof.
  split.
  - intros raw raw' p p' q1 q2 dup1 dup2 d d1 d2 E1 E2.
    apply dense_DeepCopy_inv in E1 as (? & ? & _ & _ & Eff1).
    apply dense_DeepCopy_inv in E2 as (? & ? & _ & _ & Eff2).
    exact (deep_copy_effects_isolated _ _ _ _ _ _ _ _ _ _ _ _ _ _ _ _ _ _ _
             Eff1 Eff2).
  - intros raw raw' p p' q1 q2 dup1 dup2 d d1 d2 E1 E2.
    apply batched_DeepCopy_inv in E1 as (? & ? & _ & _ & Eff1).
    apply batched_DeepCopy_inv in E2 as (? & ? & _ & _ & Eff2).
    exact (deep_copy_effects_isolated _ _ _ _ _ _ _ _ _ _ _ _ _ _ _ _ _ _ _
             Eff1 Eff2).
Qed.

(** A reference copy and a trial copy of the small dense descriptor. *)
Lemma successive_DeepCopies_isolated_witness :
  exists (q1 q2 : GemmParams.t float32) (d1 d2 : Device float32),
    GemmParams.DeepCopy junk_dense small_dense false small_device = inr (q1, d1) /\
    GemmParams.DeepCopy junk_dense small_dense true d1 = inr (q2, d2) /\
    GemmParams.c q2 <> GemmParams.c q1 /\
    (exists blk, heap d1 !! GemmParams.c q1 = Some blk /\
                 heap d2 !! GemmParams.c q1 = Some blk).
Proof.
  destruct (GemmParams.DeepCopy junk_dense small_dense false small_device)
    as [e | [q1 d1]] eqn:E1; [vm_compute in E1; discriminate E1 |].
  destruct (GemmParams.DeepCopy junk_dense small_dense true d1)
    as [e | [q2 d2]] eqn:E2.
  - vm_compute in E1. injection E1 as <- <-. vm_compute in E2. discriminate E2.
  - exists q1, q2, d1, d2.
    destruct (proj1 successive_DeepCopies_isolated junk_dense junk_dense small_dense small_dense
                q1 q2
                false true small_device d1 d2 E1 E2) as (N & L & _).
    auto.
Defined.

(** X9: the batched signature is a key of exactly six fields: two batched
    descriptors have the same signature if and only if they agree on
    transa, transb, m, n, k and batch, whatever these are (any characters,
    negative integers included); so the batch strides, the leading
    dimensions, the scalars and the buffer addresses never enter the
    key. *)
Theorem batched_signature_six_field_key {T} `{ScalarType T}
    (p q : GemmStridedBatchedParams.t T) :
  GemmStridedBatchedParams.Signature p = GemmStridedBatchedParams.Signature q <->
  GemmStridedBatchedParams.transa p = GemmStridedBatchedParams.transa q /\
  GemmStridedBatchedParams.transb p = GemmStridedBatchedParams.transb q /\
  GemmStridedBatchedParams.m p = GemmStridedBatchedParams.m q /\
  GemmStridedBatchedParams.n p = GemmStridedBatchedParams.n q /\
  GemmStridedBatchedParams.k p = GemmStridedBatchedParams.k q /\
  GemmStridedBatchedParams.batch p = GemmStridedBatchedParams.batch q.
Proof.
  rewrite !batched_signature_eq. split.
  - intros E. injection E as Ea Eb E.
    apply shape_tail_inj in E as (Em & En & Ek & E).
    injection E as E. apply stream_int64_inj in E. auto 6.
  - intros (-> & -> & -> & -> & -> & ->). reflexivity.
Qed.

(** ** Which pair the check reports *)

(** The iteration order of the sweep goes from looser to tighter pairs. *)
Lemma tolerance_pairs_sorted :
  StronglySorted (fun y x => pair_tighter x y = true) tolerance_pairs.
Proof.
  unfold tolerance_pairs, atols, rtols; simpl.
  repeat (apply SSorted_cons;
          [| repeat (apply List.Forall_cons; [vm_compute; reflexivity |]);
             apply List.Forall_nil]).
  apply SSorted_nil.
Qed.

Lemma tolerance_pairs_refl :
  Forall (fun x => pair_tighter x x = true) tolerance_pairs.
Proof.
  unfold tolerance_pairs, atols, rtols; simpl.
  repeat (apply List.Forall_cons; [vm_compute; reflexivity |]).
  apply List.Forall_nil.
Qed.

Lemma sorted_split {A} (R : A -> A -> Prop) (before after : list A) (x : A) :
  StronglySorted R (before ++ x :: after) -> Forall (fun y => R y x) before.
Proof.
  induction before as [|y before IH]; simpl; intros S.
  - apply List.Forall_nil.
  - inversion S as [|? ? S' F]; subst.
    apply List.Forall_cons; [| now apply IH].
    rewrite List.Forall_forall in F. apply F.
    apply in_or_app. right. now left.
Qed.

Lemma sweep_reports_tightest (close : float -> float -> bool) (atol rtol : float) :
  verdict (tolerance_sweep close) = (OK, Some (atol, rtol)) ->
  forall atol' rtol',
    In atol' atols -> In rtol' rtols -> close rtol' atol' = true ->
    pair_tighter (atol, rtol) (atol', rtol') = true.
Proof.
  intros E atol' rtol' Ia Ir Cl.
  pose proof (verdict_sweep_outcome close) as (_ & _ & _ & Rep).
  rewrite E in Rep.
  destruct (Rep atol rtol eq_refl) as ((before & after & Ep & _ & Fa) & _).
  assert (I : In (atol', rtol') tolerance_pairs) by now apply in_tolerance_pairs.
  pose proof tolerance_pairs_sorted as S.
  pose proof tolerance_pairs_refl as Rf.
  rewrite Ep in I, S, Rf.
  apply in_app_or in I as [I | [I | I]].
  - apply sorted_split in S. rewrite List.Forall_forall in S. now apply S.
  - rewrite <- I. rewrite List.Forall_forall in Rf. apply Rf.
    apply in_or_app. right. now left.
  - rewrite List.Forall_forall in Fa. apply Fa in I. simpl in I. congruence.
Qed.

Lemma sweep_reports_finest_iff (close : float -> float -> bool) :
  verdict (tolerance_sweep close) = (OK, Some (1e-5, 1e-5)%float) <->
  close 1e-5%float 1e-5%float = true.
Proof.
  split.
  - intros E.
    pose proof (verdict_sweep_outcome close) as (_ & _ & _ & Rep).
    rewrite E in Rep.
    now destruct (Rep _ _ eq_refl) as ((before & after & _ & Cl & _) & _).
  - intros Cl. rewrite tolerance_sweep_pairs.
    change tolerance_pairs
      with (removelast tolerance_pairs ++ [(1e-5, 1e-5)%float]).
    rewrite fold_left_app. simpl fold_left at 1.
    unfold sweep_step at 1. simpl fst; simpl snd. rewrite Cl. reflexivity.
Qed.

(** X10: when NumericalCheck returns OK, the pair it reports is the
    tightest passing pair of the ladder, absolute tolerance first: every
    ladder pair on which all-close holds has a larger atol, or the same
    atol and an rtol at least as large; and the check reports
    (1e-5, 1e-5) exactly when all-close holds at (1e-5, 1e-5), whatever it
    does on the 24 looser pairs.  For every all-close predicate and both
    variants. *)
Theorem NumericalCheck_reports_tightest {T} `{ScalarType T}
    (at_allclose : list float32 -> list float32 -> float -> float -> bool) :
  (forall (d : Device T) (p other : GemmParams.t T) (ref oth : list T),
      in_int64 (GemmParams.ldc p * GemmParams.n p) = true ->
      from_blob d (GemmParams.c p) (GemmParams.ldc p * GemmParams.n p) = Some ref ->
      from_blob d (GemmParams.c other) (GemmParams.ldc p * GemmParams.n p)
      = Some oth ->
      (forall atol rtol atol' rtol',
          GemmParams.NumericalCheck at_allclose d p other
          = Some (OK, Some (atol, rtol)) ->
          In atol' atols -> In rtol' rtols ->
          at_allclose (map to_kFloat ref) (map to_kFloat oth) rtol' atol' = true ->
          pair_tighter (atol, rtol) (atol', rtol') = true) /\
      (GemmParams.NumericalCheck at_allclose d p other
       = Some (OK, Some (1e-5, 1e-5)%float) <->
       at_allclose (map to_kFloat ref) (map to_kFloat oth) 1e-5%float 1e-5%float
       = true)) /\
  (forall (d : Device T) (p other : GemmStridedBatchedParams.t T) (ref oth : list T),
      in_int64 (GemmStridedBatchedParams.batch p * GemmStridedBatchedParams.stride_c p)
      = true ->
      from_blob d (GemmStridedBatchedParams.c p)
        (GemmStridedBatchedParams.batch p * GemmStridedBatchedParams.stride_c p)
      = Some ref ->
      from_blob d (GemmStridedBatchedParams.c other)
        (GemmStridedBatchedParams.batch p * GemmStridedBatchedParams.stride_c p)
      = Some oth ->
      (forall atol rtol atol' rtol',
          GemmStridedBatchedParams.NumericalCheck at_allclose d p other
          = Some (OK, Some (atol, rtol)) ->
          In atol' atols -> In rtol' rtols ->
          at_allclose (map to_kFloat ref) (map to_kFloat oth) rtol' atol' = true ->
          pair_tighter (atol, rtol) (atol', rtol') = true) /\
      (GemmStridedBatchedParams.NumericalCheck at_allclose d p other
       = Some (OK, Some (1e-5, 1e-5)%float) <->
       at_allclose (map to_kFloat ref) (map to_kFloat oth) 1e-5%float 1e-5%float
       = true)).
Proof.
  split.
  - intros d p other ref oth R Er Eo.
    rewrite (dense_NumericalCheck_eq at_allclose d p other ref oth R Er Eo).
    split.
    + intros atol rtol atol' rtol' [= E] Ia Ir Cl.
      exact (sweep_reports_tightest _ atol rtol E atol' rtol' Ia Ir Cl).
    + rewrite <- (sweep_reports_finest_iff
                    (fun rtol atol =>
                       at_allclose (map to_kFloat ref) (map to_kFloat oth) rtol atol)).
      split; [now intros [= E] | now intros ->].
  - intros d p other ref oth R Er Eo.
    rewrite (batched_NumericalCheck_eq at_allclose d p other ref oth R Er Eo).
    split.
    + intros atol rtol atol' rtol' [= E] Ia Ir Cl.
      exact (sweep_reports_tightest _ atol rtol E atol' rtol' Ia Ir Cl).
    + rewrite <- (sweep_reports_finest_iff
                    (fun rtol atol =>
                       at_allclose (map to_kFloat ref) (map to_kFloat oth) rtol atol)).
      split; [now intros [= E] | now intros ->].
Qed.

(** A buffer compared with itself on the small device. *)
Lemma NumericalCheck_reports_tightest_witness :
  GemmParams.NumericalCheck (allclose FirstOperand) small_device small_dense small_dense
  = Some (OK, Some (1e-5, 1e-5)%float).
Proof.
  apply (proj2 (proj1 (NumericalCheck_reports_tightest (allclose FirstOperand))
                  small_device small_dense small_dense
                  (replicate 4 f32_one) (replicate 4 f32_one)
                  ltac:(vm_compute; reflexivity)
                  ltac:(vm_compute; reflexivity)
                  ltac:(vm_compute; reflexivity))).
  vm_compute; reflexivity.
Defined.

(** ** Reading more than was copied *)

Lemma from_blob_short {T} `{ScalarType T} (d : Device T) (ptr : N) (numel : Z)
    (blk : Block T) :
  heap d !! ptr = Some blk ->
  Z.of_nat (length (block_cells blk)) < numel ->
  from_blob d ptr numel = None.
Proof.
  intros L Sh. unfold from_blob. rewrite L.
  destruct (numel <? 0); [reflexivity |].
  destruct (Z.of_nat (length (take (Z.to_nat numel) (block_cells blk))) =? numel)
    eqn:E; [| reflexivity].
  apply Z.eqb_eq in E. rewrite length_take in E. lia.
Qed.

(** The output block of a deep copy holds at most [c_size / sizeof]
    elements. *)
Lemma deep_copy_effect_short {T} `{ScalarType T} (d d' : Device T) (dup : bool)
    (src_c new_c new_a new_b : N) (c_size a_size b_size numel : Z) (src : Block T) :
  heap d !! src_c = Some src ->
  deep_copy_effect d d' dup src_c new_c new_a new_b c_size a_size b_size ->
  0 <= c_size < sizeof * numel ->
  from_blob d' new_c numel = None.
Proof.
  intros Ls (_ & _ & _ & _ & (blk & L & _ & Cells) & _) R.
  apply (from_blob_short _ _ _ blk L).
  rewrite (Cells src Ls), length_take. unfold cells_of_bytes.
  pose proof sizeof_range as S.
  assert (0 <= c_size / sizeof < numel).
  { split; [apply Z.div_pos; lia | apply Z.div_lt_upper_bound; lia]. }
  lia.
Qed.

(** X11: a deep copy's output block holds GetSizeC() bytes, while the
    check reads ldc*n elements (dense) or batch*stride_c elements
    (batched).  Whenever the copy is smaller than what the check reads
    (in the batched variant: as soon as stride_c exceeds ldc*n on a
    non-empty batch), the check of the original against its fresh copy,
    in either direction, reads past the end of the copy's block and has
    no defined result, whatever all-close computes. *)
Theorem NumericalCheck_reads_beyond_DeepCopy {T} `{ScalarType T}
    (at_allclose : list float32 -> list float32 -> float -> float -> bool) :
  (forall (raw p copy : GemmParams.t T) (dup : bool) (d d' : Device T) (src : Block T),
      heap d !! GemmParams.c p = Some src ->
      GemmParams.DeepCopy raw p dup d = inr (copy, d') ->
      GemmParams.GetSizeC p < sizeof * (GemmParams.ldc p * GemmParams.n p) ->
      GemmParams.NumericalCheck at_allclose d' p copy = None /\
      GemmParams.NumericalCheck at_allclose d' copy p = None) /\
  (forall (raw p copy : GemmStridedBatchedParams.t T) (dup : bool) (d d' : Device T)
          (src : Block T),
      heap d !! GemmStridedBatchedParams.c p = Some src ->
      GemmStridedBatchedParams.DeepCopy raw p dup d = inr (copy, d') ->
      GemmStridedBatchedParams.GetSizeC p
      < sizeof * (GemmStridedBatchedParams.batch p * GemmStridedBatchedParams.stride_c p) ->
      GemmStridedBatchedParams.NumericalCheck at_allclose d' p copy = None /\
      GemmStridedBatchedParams.NumericalCheck at_allclose d' copy p = None) /\
  (forall p : GemmStridedBatchedParams.t T,
      0 < GemmStridedBatchedParams.batch p ->
      0 <= GemmStridedBatchedParams.ldc p * GemmStridedBatchedParams.n p
      < GemmStridedBatchedParams.stride_c p ->
      GemmStridedBatchedParams.GetSizeC p
      < sizeof * (GemmStridedBatchedParams.batch p * GemmStridedBatchedParams.stride_c p)).
Proof.
  split; [| split].
  - intros raw p copy dup d d' src Ls E Sh.
    pose proof (dense_sizes_in_range p) as (_ & _ & Rc).
    apply dense_DeepCopy_inv in E as (new_c & new_ab & Ec & _ & Eff).
    pose proof (deep_copy_effect_short _ _ _ _ _ _ _ _ _ _ _ src Ls Eff
                  (conj (proj1 Rc) Sh)) as Rd.
    assert (Ef : GemmParams.ldc copy = GemmParams.ldc p /\
                 GemmParams.n copy = GemmParams.n p).
    { rewrite Ec. unfold dense_copy_of. destruct new_ab as [[? ?]|]; now simpl. }
    destruct Ef as (El & En).
    unfold GemmParams.NumericalCheck. rewrite El, En.
    destruct (int64_mul (GemmParams.ldc p) (GemmParams.n p)) as [numel|] eqn:Em;
      [| now split].
    unfold int64_mul in Em.
    destruct (in_int64 (GemmParams.ldc p * GemmParams.n p)); [| discriminate].
    injection Em as <-. rewrite Rd.
    split; [now destruct (from_blob d' (GemmParams.c p) _) | reflexivity].
  - intros raw p copy dup d d' src Ls E Sh.
    pose proof (batched_sizes_in_range p) as (_ & _ & Rc).
    apply batched_DeepCopy_inv in E as (new_c & new_ab & Ec & _ & Eff).
    pose proof (deep_copy_effect_short _ _ _ _ _ _ _ _ _ _ _ src Ls Eff
                  (conj (proj1 Rc) Sh)) as Rd.
    assert (Ef : GemmStridedBatchedParams.batch copy = GemmStridedBatchedParams.batch p /\
                 GemmStridedBatchedParams.stride_c copy
                 = GemmStridedBatchedParams.stride_c p).
    { rewrite Ec. unfold batched_copy_of. destruct new_ab as [[? ?]|]; now simpl. }
    destruct Ef as (Eb & Es).
    unfold GemmStridedBatchedParams.NumericalCheck. rewrite Eb, Es.
    destruct (int64_mul (GemmStridedBatchedParams.batch p)
                (GemmStridedBatchedParams.stride_c p)) as [numel|] eqn:Em;
      [| now split].
    unfold int64_mul in Em.
    destruct (in_int64 (GemmStridedBatchedParams.batch p
                        * GemmStridedBatchedParams.stride_c p)); [| discriminate].
    injection Em as <-. rewrite Rd.
    split; [now destruct (from_blob d' (GemmStridedBatchedParams.c p) _)
           | reflexivity].
  - intros p Hb Hs.
    unfold GemmStridedBatchedParams.GetSizeC. rewrite size_mul4.
    pose proof sizeof_range as S. pose proof size_t_modulus_pos as M.
    set (e := GemmStridedBatchedParams.ldc p * GemmStridedBatchedParams.n p) in *.
    replace (sizeof * GemmStridedBatchedParams.ldc p * GemmStridedBatchedParams.n p
             * GemmStridedBatchedParams.batch p)
      with (sizeof * (GemmStridedBatchedParams.batch p * e)) by (unfold e; ring).
    assert (0 <= sizeof * (GemmStridedBatchedParams.batch p * e)) by nia.
    apply Z.le_lt_trans with (sizeof * (GemmStridedBatchedParams.batch p * e)).
    + apply Z.mod_le; lia.
    + apply Z.mul_lt_mono_pos_l; [lia |].
      apply Z.mul_lt_mono_pos_l; lia.
Qed.

(** Two 2x2 problems with a batch stride of 5 elements: 8 elements are
    copied and 10 are read. *)
Lemma NumericalCheck_reads_beyond_DeepCopy_witness :
  exists (copy : GemmStridedBatchedParams.t float32) (d' : Device float32),
    GemmStridedBatchedParams.DeepCopy junk_batched padded_batched false padded_device
    = inr (copy, d') /\
    GemmStridedBatchedParams.NumericalCheck (allclose FirstOperand) d' padded_batched copy = None /\
    GemmStridedBatchedParams.NumericalCheck (allclose FirstOperand) d' copy padded_batched = None.
Proof.
  destruct (GemmStridedBatchedParams.DeepCopy junk_batched padded_batched false padded_device)
    as [e | [copy d']] eqn:E; [vm_compute in E; discriminate E |].
  exists copy, d'. split; [reflexivity |].
  apply (proj1 (proj2 (NumericalCheck_reads_beyond_DeepCopy (allclose FirstOperand)))
           junk_batched padded_batched copy false padded_device d'
           (block_of (replicate 10 f32_one))).
  - vm_compute; reflexivity.
  - exact E.
  - apply (proj2 (proj2 (NumericalCheck_reads_beyond_DeepCopy (allclose FirstOperand)))
             padded_batched); vm_compute; split; congruence.
Defined.

(** ** Total footprint of a batched descriptor *)

Lemma wrap_scaled_sum (c a b batch : Z) :
  size_add (size_add (size_mul c (to_size_t batch)) (size_mul a (to_size_t batch)))
           (size_mul b (to_size_t batch))
  = (batch * size_add (size_add c a) b) mod size_t_modulus.
Proof.
  pose proof size_t_modulus_pos as M.
  rewrite !size_mul_to_size_t_r, !size_add3.
  rewrite Z.mul_mod_idemp_r by lia.
  rewrite Z.add_mod_idemp_r by lia.
  rewrite <- Z.add_assoc, Z.add_mod_idemp_l by lia.
  rewrite (Z.add_comm (c * batch)), <- Z.add_assoc, Z.add_mod_idemp_l by lia.
  f_equal. ring.
Qed.

(** X12: the total footprint GetSize of a batched descriptor is batch
    times that of the dense descriptor of the same shape and leading
    dimensions, modulo 2^64: exactly batch times it when batch is not
    negative and the product is below 2^64, and equal to it when batch is
    1; without duplicated inputs it is GetSizeC(). *)
Theorem batched_GetSize_scales {T} `{ScalarType T}
    (p : GemmStridedBatchedParams.t T) (q : GemmParams.t T) (dup : bool) :
  same_shape p q -> same_leading_dims p q ->
  GemmStridedBatchedParams.GetSize p false = GemmStridedBatchedParams.GetSizeC p /\
  GemmStridedBatchedParams.GetSize p dup
  = (GemmStridedBatchedParams.batch p * GemmParams.GetSize q dup) mod size_t_modulus /\
  (0 <= GemmStridedBatchedParams.batch p ->
   GemmStridedBatchedParams.batch p * GemmParams.GetSize q dup < size_t_modulus ->
   GemmStridedBatchedParams.GetSize p dup
   = GemmStridedBatchedParams.batch p * GemmParams.GetSize q dup) /\
  (GemmStridedBatchedParams.batch p = 1 ->
   GemmStridedBatchedParams.GetSize p dup = GemmParams.GetSize q dup).
Proof.
  intros S L.
  pose proof size_t_modulus_pos as M.
  assert (E : GemmStridedBatchedParams.GetSize p dup
              = (GemmStridedBatchedParams.batch p * GemmParams.GetSize q dup)
                mod size_t_modulus).
  { unfold GemmStridedBatchedParams.GetSize, GemmParams.GetSize.
    rewrite (batched_GetSizeA_dense p q S L), (batched_GetSizeB_dense p q S L),
      (batched_GetSizeC_dense p q S L).
    destruct dup.
    - apply wrap_scaled_sum.
    - rewrite size_mul_to_size_t_r. f_equal. ring. }
  assert (R : 0 <= GemmParams.GetSize q dup < size_t_modulus).
  { unfold GemmParams.GetSize. destruct dup.
    - unfold size_add at 1. apply Z.mod_pos_bound. lia.
    - apply dense_sizes_in_range. }
  split; [reflexivity | split; [exact E | split]].
  - intros Hb Hs. rewrite E. apply Z.mod_small. nia.
  - intros Hb. rewrite E, Hb, Z.mul_1_l. now apply Z.mod_small.
Qed.

(** The batched scenario with duplicated inputs: four times the dense
    footprint. *)
Lemma batched_GetSize_scales_witness :
  GemmStridedBatchedParams.GetSize sample_batched true
  = 4 * GemmParams.GetSize sample_dense true.
Proof.
  assert (S : same_shape sample_batched sample_dense) by (repeat split; reflexivity).
  assert (L : same_leading_dims sample_batched sample_dense)
    by (repeat split; reflexivity).
  destruct (batched_GetSize_scales sample_batched sample_dense true S L)
    as (_ & _ & E & _).
  apply E; vm_compute; congruence.
Defined.

(** ** Duplicated inputs *)

Lemma from_blob_uninitialised {T} `{ScalarType T} (d : Device T) (ptr : N)
    (nbytes numel : Z) (count : nat) :
  heap d !! ptr = Some (mkBlock nbytes (replicate count None)) ->
  0 < numel ->
  from_blob d ptr numel = None.
Proof.
  intros L Pos. unfold from_blob. rewrite L. simpl block_cells.
  destruct (numel <? 0); [reflexivity |].
  rewrite take_replicate, length_replicate.
  destruct (Z.of_nat (Z.to_nat numel `min` count) =? numel) eqn:E; [| reflexivity].
  apply Z.eqb_eq in E.
  destruct (Z.to_nat numel `min` count)%nat as [|k] eqn:K; [simpl in E; lia |].
  reflexivity.
Qed.

(** X13: DeepCopy(true) duplicates the storage of the two inputs, not
    their contents: the only copy it issues goes to the output block, and
    the input blocks of the returned descriptor, of GetSizeA() and
    GetSizeB() bytes, are wholly uninitialised, so that reading any
    element of them has no defined value.  In both variants. *)
Theorem DeepCopy_inputs_uninitialised {T} `{ScalarType T} :
  (forall (raw p copy : GemmParams.t T) (d d' : Device T),
      GemmParams.DeepCopy raw p true d = inr (copy, d') ->
      heap d' !! GemmParams.a copy
      = Some (mkBlock (GemmParams.GetSizeA p)
                (replicate (cells_of_bytes (GemmParams.GetSizeA p)) None)) /\
      heap d' !! GemmParams.b copy
      = Some (mkBlock (GemmParams.GetSizeB p)
                (replicate (cells_of_bytes (GemmParams.GetSizeB p)) None)) /\
      (forall numel, 0 < numel ->
                     from_blob d' (GemmParams.a copy) numel = None /\
                     from_blob d' (GemmParams.b copy) numel = None) /\
      (forall dst dstDevice src srcDevice nbytes,
          In (MemcpyAsync dst dstDevice src srcDevice nbytes)
             (drop (length (calls d)) (calls d')) ->
          dst = GemmParams.c copy /\ src = GemmParams.c p)) /\
  (forall (raw p copy : GemmStridedBatchedParams.t T) (d d' : Device T),
      GemmStridedBatchedParams.DeepCopy raw p true d = inr (copy, d') ->
      heap d' !! GemmStridedBatchedParams.a copy
      = Some (mkBlock (GemmStridedBatchedParams.GetSizeA p)
                (replicate (cells_of_bytes (GemmStridedBatchedParams.GetSizeA p)) None)) /\
      heap d' !! GemmStridedBatchedParams.b copy
      = Some (mkBlock (GemmStridedBatchedParams.GetSizeB p)
                (replicate (cells_of_bytes (GemmStridedBatchedParams.GetSizeB p)) None)) /\
      (forall numel, 0 < numel ->
                     from_blob d' (GemmStridedBatchedParams.a copy) numel = None /\
                     from_blob d' (GemmStridedBatchedParams.b copy) numel = None) /\
      (forall dst dstDevice src srcDevice nbytes,
          In (MemcpyAsync dst dstDevice src srcDevice nbytes)
             (drop (length (calls d)) (calls d')) ->
          dst = GemmStridedBatchedParams.c copy /\
          src = GemmStridedBatchedParams.c p)).
Proof.
  split.
  - intros raw p copy d d' E.
    apply dense_DeepCopy_inv in E as (new_c & new_ab & _ & _ & Eff).
    destruct Eff as (_ & (device & Tr) & _ & _ & _ & Dup).
    destruct (Dup eq_refl) as (_ & _ & _ & _ & _ & La & Lb).
    split; [exact La | split; [exact Lb | split]].
    + intros numel Pos.
      split; eapply from_blob_uninitialised; eauto.
    + intros dst dd src sd nb I.
      rewrite Tr, drop_app_length in I. simpl in I.
      destruct I as [I | [I | [I | [I | []]]]]; try discriminate I.
      now injection I as <- _ <- _ _.
  - intros raw p copy d d' E.
    apply batched_DeepCopy_inv in E as (new_c & new_ab & _ & _ & Eff).
    destruct Eff as (_ & (device & Tr) & _ & _ & _ & Dup).
    destruct (Dup eq_refl) as (_ & _ & _ & _ & _ & La & Lb).
    split; [exact La | split; [exact Lb | split]].
    + intros numel Pos.
      split; eapply from_blob_uninitialised; eauto.
    + intros dst dd src sd nb I.
      rewrite Tr, drop_app_length in I. simpl in I.
      destruct I as [I | [I | [I | [I | []]]]]; try discriminate I.
      now injection I as <- _ <- _ _.
Qed.

(** The small dense descriptor duplicated on the small device. *)
Lemma DeepCopy_inputs_uninitialised_witness :
  exists (copy : GemmParams.t float32) (d' : Device float32),
    GemmParams.DeepCopy junk_dense small_dense true small_device = inr (copy, d') /\
    from_blob d' (GemmParams.a copy) 1 = None /\
    from_blob d' (GemmParams.b copy) 1 = None.
Proof.
  destruct (GemmParams.DeepCopy junk_dense small_dense true small_device)
    as [e | [copy d']] eqn:E; [vm_compute in E; discriminate E |].
  exists copy, d'. split; [reflexivity |].
  destruct (proj1 DeepCopy_inputs_uninitialised junk_dense small_dense copy small_device d' E)
    as (_ & _ & R & _).
  apply R. reflexivity.
Defined.
